(** * Recovery and resilience harness: health wait, cleanup, process control,
      metrics and the users endpoints.

    The development follows the Python sources:
    - [conftest.py]: [_wait] (inside the [wait_for_health] fixture),
      [_delete_all_users], [clean_database], [_run_docker_command] and the
      [stop]/[start]/[restart] wrappers;
    - [app/metrics.py]: the [_metrics] dictionary, [record_request],
      [get_metrics];
    - [app/main.py]: [create_user], [list_users], [delete_user];
    - [tests/test_chaos_load.py]: the error-rate expression.

    Python integers are [Z]; the two float parameters that matter (a request
    timeout and a sleep delay, both given as decimal literals) are [Q];
    dictionaries are [gmap]; captured process output is a list of bytes until
    [text=True] has read it as text; everything that talks to the outside
    (HTTP, subprocess, logging, sleeping) is made explicit as an oracle for
    the answers and a list of events for what the code did. *)

From Stdlib Require Import QArith Ascii.
From stdpp Require Import gmap strings list fin_maps.

Open Scope Z_scope.

(** ** Shared vocabulary *)

Inductive Level := INFO | WARNING | ERROR.

#[global] Instance Level_eq_dec : EqDecision Level.
Proof. solve_decision. Defined.

(** [range(lo, hi)] of Python: the integers [lo], [lo+1], ..., [hi-1]; empty
    when [hi <= lo]. *)
Definition py_range (lo hi : Z) : list Z :=
  (λ i : nat, lo + Z.of_nat i) <$> seq 0 (Z.to_nat (hi - lo)).

(** ** The health wait ([conftest.py], [wait_for_health] and its [_wait]) *)

Module Health.

(** What one [client.get("/health")] can do: answer with a status code, or
    raise [httpx.RequestError] (connection refused, time-out, ...). *)
Inductive ProbeOutcome :=
| Response (status_code : Z)
| RequestError.

#[global] Instance ProbeOutcome_eq_dec : EqDecision ProbeOutcome.
Proof. solve_decision. Defined.

(** What [_wait] does to the outside, in order. *)
Inductive Event :=
| EvGet (path : string) (timeout : Q)
| EvLog (lvl : Level) (fmt : string) (arg : Z)
| EvSleep (seconds : Q).

(** [httpx.Timeout(5.0)] of the client that [_wait] opens. *)
Definition client_timeout : Q := 5.

(** The defaults of [_wait]'s parameters. *)
Definition default_max_attempts : Z := 30.
Definition default_delay_seconds : Q := 1.

Definition health_get : Event := EvGet "/health" client_timeout.

(** The body of [for attempt in range(1, max_attempts + 1)], over the
    attempts still to run. [probe i] is the outcome of the request number
    [i] (counted from 0) that the client sends; [issued] is how many it has
    sent so far. The boolean says whether the loop left through
    [return True]. *)
Fixpoint wait_loop (probe : nat → ProbeOutcome) (delay_seconds : Q)
    (attempts : list Z) (issued : nat) : bool * list Event :=
  match attempts with
  | [] => (false, [])
  | attempt :: rest =>
      let later := wait_loop probe delay_seconds rest (S issued) in
      match probe issued with
      | Response status_code =>
          if status_code =? 200 then
            (true,
             [health_get; EvLog INFO "Service healthy after %d attempts" attempt])
          else
            (later.1, health_get :: EvSleep delay_seconds :: later.2)
      | RequestError =>
          (later.1,
           health_get
             :: EvLog WARNING "Health check attempt %d failed" attempt
             :: EvSleep delay_seconds :: later.2)
      end
  end.

Definition _wait (probe : nat → ProbeOutcome)
    (max_attempts : Z) (delay_seconds : Q) : bool * list Event :=
  let run := wait_loop probe delay_seconds (py_range 1 (max_attempts + 1)) 0 in
  if run.1 then (true, run.2)
  else
    (false,
     run.2 ++ [EvLog ERROR "Service did not recover after %d attempts" max_attempts]).

(** Observations on a trace. *)
Definition is_get (e : Event) : bool :=
  match e with EvGet _ _ => true | _ => false end.
Definition is_sleep (e : Event) : bool :=
  match e with EvSleep _ => true | _ => false end.

Definition probes (t : list Event) : nat := length (filter is_get t).
Definition sleeps (t : list Event) : nat := length (filter is_sleep t).

(** The attempt numbers of the per-attempt records ("Health check attempt
    %d failed"), in the order they were logged. *)
Fixpoint recorded_attempts (t : list Event) : list Z :=
  match t with
  | [] => []
  | EvLog WARNING _ attempt :: t' => attempt :: recorded_attempts t'
  | _ :: t' => recorded_attempts t'
  end.

(** The numbers reported by the closing "did not recover" records. *)
Fixpoint reported_exhausted (t : list Event) : list Z :=
  match t with
  | [] => []
  | EvLog ERROR _ n :: t' => n :: reported_exhausted t'
  | _ :: t' => reported_exhausted t'
  end.

(** The attempts, among the [n] that start at probe [issued] and number
    [lo], that end in a [RequestError]. *)
Definition failed_to_connect (probe : nat → ProbeOutcome) (lo : Z) (issued n : nat) : list Z :=
  (λ j : nat, lo + Z.of_nat j)
    <$> filter (λ j, probe (issued + j)%nat = RequestError) (seq 0 n).

Definition timeout_of (e : Event) : option Q :=
  match e with EvGet _ timeout => Some timeout | _ => None end.

(** The delays of the sleeps of a trace, in order. *)
Definition sleep_delays (t : list Event) : list Q :=
  omap (λ e, match e with EvSleep seconds => Some seconds | _ => None end) t.

End Health.

(** ** Process control ([conftest.py], [_run_docker_command] and wrappers) *)

Module Docker.

(** What [subprocess.run(command, check=True, capture_output=True,
    text=True)] can meet: the process ran and exited with a return code,
    having written the bytes [stdout] and [stderr]; or it could not be
    started at all ([OSError], for instance no [docker] executable). *)
Inductive ProcOutcome :=
| Exited (returncode : Z) (stdout stderr : list Byte.byte)
| NotStarted.

(** The host the harness runs on: what the commands do there; how
    [text=True] reads captured bytes as text, in the encoding of the locale
    and with its newlines translated ([None] when the bytes are not text in
    that encoding: [UnicodeDecodeError]); and the longest delay, in seconds,
    that [time.sleep] takes (beyond it: [OverflowError]). *)
Record Host := {
  run : list string → ProcOutcome;
  text : list Byte.byte → option string;
  sleep_max : Z;
}.

(** The exceptions that leave [_run_docker_command]: it catches
    [CalledProcessError] and nothing else. *)
Inductive Exn :=
| OSError
| UnicodeDecodeError
| OverflowError.

#[global] Instance Exn_eq_dec : EqDecision Exn.
Proof. solve_decision. Defined.

Inductive Result (A : Type) :=
| Returned (a : A)
| Raised (e : Exn).
Arguments Returned {A} a.
Arguments Raised {A} e.

Inductive Event :=
| EvLog (lvl : Level) (fmt : string) (arg : string)
| EvRun (command : list string)
| EvSleep (seconds : Z).

Definition DOCKER_WAIT_SECONDS : Z := 10.

(** [x or y] of Python on strings: [y] when [x] is empty. *)
Definition str_or (x y : string) : string :=
  if decide (x = "") then y else x.

(** [subprocess.run] reads both captured streams as text before it looks at
    the return code; [check=True] then turns a non-zero return code into
    [CalledProcessError], which is the one exception the function catches.
    After a zero return code the function sleeps when [wait_time > 0]. *)
Definition _run_docker_command (host : Host)
    (command : list string) (wait_time : Z) : Result bool * list Event :=
  let started :=
    [EvLog INFO "Running docker command: %s" (String.concat " " command);
     EvRun command] in
  match run host command with
  | Exited returncode stdout stderr =>
      match text host stdout, text host stderr with
      | Some _, Some stderr_text =>
          if returncode =? 0 then
            if 0 <? wait_time then
              if wait_time <=? sleep_max host then
                (Returned true, started ++ [EvSleep wait_time])
              else (Raised OverflowError, started)
            else (Returned true, started)
          else
            (Returned false,
             started ++
               [EvLog ERROR "Docker command failed: %s"
                  (str_or stderr_text "Unknown error")])
      | _, _ => (Raised UnicodeDecodeError, started)
      end
  | NotStarted => (Raised OSError, started)
  end.

Definition restart_container host (container_name : string) (wait_time : Z) :=
  _run_docker_command host ["docker"; "restart"; container_name] wait_time.

Definition stop_container host (container_name : string) :=
  _run_docker_command host ["docker"; "stop"; container_name] 0.

Definition start_container host (container_name : string) (wait_time : Z) :=
  _run_docker_command host ["docker"; "start"; container_name] wait_time.

(** The three actions of the [docker_control] fixture. *)
Inductive Action :=
| Restart (container_name : string) (wait_time : Z)
| Stop (container_name : string)
| Start (container_name : string) (wait_time : Z).

Definition command_of (a : Action) : list string :=
  match a with
  | Restart n _ => ["docker"; "restart"; n]
  | Stop n => ["docker"; "stop"; n]
  | Start n _ => ["docker"; "start"; n]
  end.

Definition docker_control host (a : Action) : Result bool * list Event :=
  match a with
  | Restart n w => restart_container host n w
  | Stop n => stop_container host n
  | Start n w => start_container host n w
  end.

Definition error_records (t : list Event) : list string :=
  omap (λ e, match e with EvLog ERROR _ arg => Some arg | _ => None end) t.

(** The process ran and exited with code zero. *)
Definition exited_zero (o : ProcOutcome) : bool :=
  match o with
  | Exited returncode _ _ => returncode =? 0
  | NotStarted => false
  end.

(** The process ran and both captured streams are text on this host. *)
Definition captured_text (host : Host) (o : ProcOutcome) : bool :=
  match o with
  | Exited _ stdout stderr =>
      bool_decide (is_Some (text host stdout))
      && bool_decide (is_Some (text host stderr))
  | NotStarted => false
  end.

Definition sleep_records (t : list Event) : list Z :=
  omap (λ e, match e with EvSleep seconds => Some seconds | _ => None end) t.

Definition run_records (t : list Event) : list (list string) :=
  omap (λ e, match e with EvRun command => Some command | _ => None end) t.

End Docker.

(** ** Metrics ([app/metrics.py]) and the error rate of the load test *)

Module Metrics.

(** Python dictionaries are objects: two names can denote the same one.
    The store maps addresses to dictionaries; the module global [_metrics]
    is bound to a fixed address. *)
Definition _metrics : nat := 0%nat.

Definition initial_metrics : gmap string Z :=
  {[ "app_requests_total" := 0; "app_requests_failed" := 0;
     "db_connection_ok" := 1; "db_last_error_timestamp" := 0 ]}.

Definition initial_store : gmap nat (gmap string Z) :=
  {[ _metrics := initial_metrics ]}.

Inductive Exn :=
| KeyError (key : string)
| NameError.

Inductive Result (A : Type) :=
| Returned (a : A)
| Raised (e : Exn).
Arguments Returned {A} a.
Arguments Raised {A} e.

(** [_metrics[k] += 1], then the rest; the store keeps the increments made
    before a [KeyError]. *)
Definition record_request (success : bool) (h : gmap nat (gmap string Z))
    : Result unit * gmap nat (gmap string Z) :=
  match h !! _metrics with
  | None => (Raised NameError, h)
  | Some d =>
      match d !! "app_requests_total" with
      | None => (Raised (KeyError "app_requests_total"), h)
      | Some total =>
          let d1 := <["app_requests_total" := total + 1]> d in
          if success then (Returned (), <[_metrics := d1]> h)
          else
            match d1 !! "app_requests_failed" with
            | None =>
                (Raised (KeyError "app_requests_failed"), <[_metrics := d1]> h)
            | Some failed =>
                (Returned (),
                 <[_metrics := <["app_requests_failed" := failed + 1]> d1]> h)
            end
      end
  end.

(** [return _metrics.copy()]: a new dictionary with the same items, at an
    address not in use; the caller gets that address. *)
Definition get_metrics (h : gmap nat (gmap string Z))
    : Result nat * gmap nat (gmap string Z) :=
  match h !! _metrics with
  | None => (Raised NameError, h)
  | Some d => let snapshot := fresh (dom h) in (Returned snapshot, <[snapshot := d]> h)
  end.

(** A run of [record_request] calls, stopping at the first exception. *)
Fixpoint record_requests (outcomes : list bool) (h : gmap nat (gmap string Z))
    : Result unit * gmap nat (gmap string Z) :=
  match outcomes with
  | [] => (Returned (), h)
  | success :: rest =>
      match record_request success h with
      | (Returned _, h') => record_requests rest h'
      | (Raised e, h') => (Raised e, h')
      end
  end.

(** What the holder of a reference to a dictionary can do to it. *)
Inductive DictOp :=
| SetItem (key : string) (value : Z)
| DelItem (key : string)
| Clear.

Definition dict_op (op : DictOp) (d : gmap string Z) : gmap string Z :=
  match op with
  | SetItem k v => <[k := v]> d
  | DelItem k => delete k d
  | Clear => ∅
  end.

Definition mutate (r : nat) (op : DictOp) (h : gmap nat (gmap string Z))
    : gmap nat (gmap string Z) :=
  match h !! r with
  | None => h
  | Some d => <[r := dict_op op d]> h
  end.

Definition mutate_all (r : nat) (ops : list DictOp) (h : gmap nat (gmap string Z))
    : gmap nat (gmap string Z) :=
  foldl (λ h op, mutate r op h) h ops.

(** The counters as a reader of the internal dictionary sees them. *)
Definition counter (key : string) (h : gmap nat (gmap string Z)) : option Z :=
  h !! _metrics ≫= λ d, d !! key.

(** The internal dictionary holds both counters, with
    [0 <= failed <= total]. *)
Definition counters_ok (h : gmap nat (gmap string Z)) (total failed : Z) : Prop :=
  counter "app_requests_total" h = Some total
  ∧ counter "app_requests_failed" h = Some failed
  ∧ 0 ≤ failed ≤ total.

(** What [db.execute(text("SELECT 1"))] can do: succeed, raise an exception
    of the [SQLAlchemyError] family, or raise something else. *)
Inductive ExecOutcome :=
| ExecOk
| ExecSQLAlchemyError
| ExecOtherError.

(** What can leave [check_database] and the [/metrics] endpoint. *)
Inductive Escaped :=
| FromMetrics (e : Exn)
| FromExecute.

Inductive Outcome (A : Type) :=
| Done (a : A)
| Escapes (e : Escaped).
Arguments Done {A} a.
Arguments Escapes {A} e.

(** [_metrics[key] = value] *)
Definition set_metric (key : string) (value : Z) (h : gmap nat (gmap string Z))
    : Outcome unit * gmap nat (gmap string Z) :=
  match h !! _metrics with
  | None => (Escapes (FromMetrics NameError), h)
  | Some d => (Done (), <[_metrics := <[key := value]> d]> h)
  end.

(** [check_database]; [now] is what [time.time()] reads, in the numbers the
    store keeps. *)
Definition check_database (exec : ExecOutcome) (now : Z)
    (h : gmap nat (gmap string Z)) : Outcome unit * gmap nat (gmap string Z) :=
  match exec with
  | ExecOk => set_metric "db_connection_ok" 1 h
  | ExecSQLAlchemyError =>
      match set_metric "db_connection_ok" 0 h with
      | (Done _, h1) => set_metric "db_last_error_timestamp" now h1
      | (Escapes e, h1) => (Escapes e, h1)
      end
  | ExecOtherError => (Escapes FromExecute, h)
  end.

(** The [/metrics] endpoint of [app/main.py]: [check_database] and
    [record_request(success=True)] under [try]; on any exception
    [record_request(success=False)] and the exception again; otherwise the
    snapshot of [get_metrics]. *)
Definition metrics (exec : ExecOutcome) (now : Z) (h : gmap nat (gmap string Z))
    : Outcome nat * gmap nat (gmap string Z) :=
  let attempt :=
    match check_database exec now h with
    | (Done _, h1) =>
        match record_request true h1 with
        | (Returned _, h2) => (Done (), h2)
        | (Raised e, h2) => (Escapes (FromMetrics e), h2)
        end
    | (Escapes e, h1) => (Escapes e, h1)
    end in
  match attempt with
  | (Done _, h2) =>
      match get_metrics h2 with
      | (Returned snapshot, h3) => (Done snapshot, h3)
      | (Raised e, h3) => (Escapes (FromMetrics e), h3)
      end
  | (Escapes e, h2) =>
      match record_request false h2 with
      | (Returned _, h3) => (Escapes e, h3)
      | (Raised e', h3) => (Escapes (FromMetrics e'), h3)
      end
  end.

End Metrics.

Module ChaosLoad.

(** [error_rate = (failed_requests / total_requests * 100)
    if total_requests > 0 else 0] in [test_chaos_load.py]; the quotient is
    taken in the rationals. *)
Definition error_rate (failed_requests total_requests : Z) : Q :=
  if 0 <? total_requests then
    (inject_Z failed_requests / inject_Z total_requests * 100)%Q
  else 0%Q.

End ChaosLoad.

(** ** The users endpoints ([app/main.py], over the [users] table of
       [app/models.py]) *)

Module Service.

(** The request body of [POST /users/], already validated ([UserCreate]). *)
Record UserCreate := {
  uc_name : string;
  uc_email : string;
  uc_is_active : bool;
}.

(** A row of [users] without its primary key. The two time-stamp columns
    are filled by the database and are no part of [UserResponse]; they are
    left out. *)
Record UserRow := {
  name : string;
  email : string;
  is_active : bool;
}.

#[global] Instance UserRow_eq_dec : EqDecision UserRow.
Proof. solve_decision. Defined.

(** [UserResponse]: a row together with its [id]. *)
Record UserResponse := {
  id : Z;
  row : UserRow;
}.

#[global] Instance UserResponse_eq_dec : EqDecision UserResponse.
Proof. solve_decision. Defined.

(** The table, keyed by its primary key [id], and the sequence that hands
    out the next [id]. *)
Record Db := {
  users : gmap Z UserRow;
  users_id_seq : Z;
}.

(** What [db.commit()] can raise besides [IntegrityError]: the driver's
    [ValueError] for a text parameter it cannot send, and [DataError] for a
    value outside the range of its column. *)
Inductive Exn :=
| ValueError
| DataError.

#[global] Instance Exn_eq_dec : EqDecision Exn.
Proof. solve_decision. Defined.

(** What an endpoint answers: its status code with a body, or an
    [HTTPException]; or an exception that nothing in the endpoint catches
    leaves it, and the framework answers 500. *)
Inductive Answer (A : Type) :=
| Ok (status_code : Z) (body : A)
| HTTPException (status_code : Z) (detail : string)
| Unhandled (exc : Exn).
Arguments Ok {A} status_code body.
Arguments HTTPException {A} status_code detail.
Arguments Unhandled {A} exc.

Definition status_of {A} (a : Answer A) : Z :=
  match a with
  | Ok s _ => s
  | HTTPException s _ => s
  | Unhandled _ => 500
  end.

(** [id = Column(Integer, primary_key=True)]: a 32-bit column, and the
    sequence that feeds it has the same range. *)
Definition INTEGER_MIN : Z := -2147483648.
Definition INTEGER_MAX : Z := 2147483647.

Definition fits_integer (z : Z) : bool :=
  (INTEGER_MIN <=? z) && (z <=? INTEGER_MAX).

(** The text holds a NUL character. The driver refuses such a text as a
    parameter of a statement: [ValueError], before anything is sent. *)
Fixpoint has_nul (s : string) : bool :=
  match s with
  | EmptyString => false
  | String c rest => bool_decide (c = "000"%char) || has_nul rest
  end.

(** The two texts of a request body are ones the driver can send. *)
Definition nul_free (user : UserCreate) : bool :=
  negb (has_nul (uc_name user)) && negb (has_nul (uc_email user)).

(** [email] is declared [unique=True]. *)
Definition email_taken (e : string) (t : gmap Z UserRow) : bool :=
  bool_decide (Exists (λ kv : Z * UserRow, email kv.2 = e) (map_to_list t)).

(** [db.add(db_user); db.commit()] inserts a row whose [id] comes from the
    sequence. The commit can fail in three ways, in this order. The driver
    refuses a text with a NUL character ([ValueError]) before the statement
    is sent. The sequence has no value left within the range of the
    [Integer] column ([DataError]). The insert violates a constraint
    ([IntegrityError]) when the email is already there (or the primary key
    is). Only [IntegrityError] is caught: [db.rollback()] then leaves the
    table as it was and the answer is 400; a value taken from a sequence is
    not given back by a rollback. The other two leave [create_user] as they
    are, with nothing stored. *)
Definition create_user (user : UserCreate) (db : Db) : Answer UserResponse * Db :=
  let new_id := users_id_seq db in
  let db_user :=
    {| name := uc_name user; email := uc_email user;
       is_active := uc_is_active user |} in
  if negb (nul_free user) then (Unhandled ValueError, db)
  else if negb (fits_integer new_id) then (Unhandled DataError, db)
  else if email_taken (uc_email user) (users db)
          || bool_decide (is_Some (users db !! new_id)) then
    (HTTPException 400 "Email already registered",
     {| users := users db; users_id_seq := new_id + 1 |})
  else
    (Ok 201 {| id := new_id; row := db_user |},
     {| users := <[new_id := db_user]> (users db); users_id_seq := new_id + 1 |}).

(** [db.query(User).all()] *)
Definition list_users (db : Db) : Answer (list UserResponse) :=
  Ok 200 ((λ kv : Z * UserRow, {| id := kv.1; row := kv.2 |}) <$> map_to_list (users db)).

Definition get_user (user_id : Z) (db : Db) : Answer UserResponse :=
  match users db !! user_id with
  | None => HTTPException 404 "User not found"
  | Some r => Ok 200 {| id := user_id; row := r |}
  end.

(** The body of the 200 answer is [{"message": ..., "user_id": user_id}]. *)
Definition delete_user (user_id : Z) (db : Db) : Answer (string * Z) * Db :=
  match users db !! user_id with
  | None => (HTTPException 404 "User not found", db)
  | Some _ =>
      (Ok 200 ("User deleted successfully", user_id),
       {| users := delete user_id (users db); users_id_seq := users_id_seq db |})
  end.

Definition empty_db (next_id : Z) : Db := {| users := ∅; users_id_seq := next_id |}.

(** No two rows carry the same email: what [unique=True] stands for. *)
Definition emails_unique (t : gmap Z UserRow) : Prop :=
  ∀ i j r s, t !! i = Some r → t !! j = Some s → email r = email s → i = j.

(** Every stored [id] was handed out by the sequence. *)
Definition ids_below_seq (db : Db) : Prop :=
  ∀ i, is_Some (users db !! i) → i < users_id_seq db.

(** The requests that change the table, and the status codes that a run of
    them gets, in order. *)
Inductive Call :=
| Create (user : UserCreate)
| Delete (user_id : Z).

Definition call (c : Call) (db : Db) : Z * Db :=
  match c with
  | Create user => (status_of (create_user user db).1, (create_user user db).2)
  | Delete user_id => (status_of (delete_user user_id db).1, (delete_user user_id db).2)
  end.

Fixpoint calls (cs : list Call) (db : Db) : list Z * Db :=
  match cs with
  | [] => ([], db)
  | c :: rest =>
      let '(status, db1) := call c db in
      let '(statuses, db2) := calls rest db1 in
      (status :: statuses, db2)
  end.

End Service.

(** ** Cleanup between scenarios ([conftest.py], [_delete_all_users] and
       [clean_database]) *)

Module Cleanup.

(** The JSON values that occur in a user object. *)
Inductive jval :=
| JNull
| JBool (b : bool)
| JInt (z : Z)
| JStr (s : string).

#[global] Instance jval_eq_dec : EqDecision jval.
Proof. solve_decision. Defined.

(** Truth value of a Python object ([not user_id] is its negation). *)
Definition truthy (v : jval) : bool :=
  match v with
  | JNull => false
  | JBool b => b
  | JInt z => negb (z =? 0)
  | JStr s => negb (bool_decide (s = ""))
  end.

(** [user.get("id")]: [None] when the key is missing. *)
Definition dict_get (key : string) (d : gmap string jval) : jval :=
  default JNull (d !! key).

(** How FastAPI serialises a [UserResponse]. *)
Definition user_json (u : Service.UserResponse) : gmap string jval :=
  {[ "id" := JInt (Service.id u);
     "name" := JStr (Service.name (Service.row u));
     "email" := JStr (Service.email (Service.row u));
     "is_active" := JBool (Service.is_active (Service.row u)) ]}.

(** The two requests the cleanup sends: [GET /users/] and
    [DELETE /users/{user_id}], the latter with whatever [user.get("id")]
    gave. *)
Inductive Request :=
| GetUsers
| DeleteUser (user_id : jval).

#[global] Instance Request_eq_dec : EqDecision Request.
Proof. solve_decision. Defined.

(** What reaches the client: the status code, and the JSON list when the
    answer carries one (the 200 answer of [GET /users/]). *)
Record Reply := {
  status_code : Z;
  json : list (gmap string jval);
}.

(** The exceptions of [httpx]; both classes derive from [HTTPError]. *)
Inductive HttpxError :=
| RequestError
| HTTPStatusError (status : Z).

Definition is_HTTPError (e : HttpxError) : bool := true.
Definition is_RequestError (e : HttpxError) : bool :=
  match e with RequestError => true | HTTPStatusError _ => false end.

(** What happens to one request on its way. *)
Inductive Fault :=
| Delivered      (* the service handles it and the answer arrives *)
| ConnectError   (* it never reaches the service: RequestError *)
| ReplyLost      (* the service handles it, the answer is lost: RequestError *)
| ServerError.   (* the service answers 500 without touching the table *)

#[global] Instance Fault_eq_dec : EqDecision Fault.
Proof. solve_decision. Defined.

Inductive Logged :=
| LogInfo (msg : string)
| LogFetchFailed (exc : HttpxError)
| LogDeleteFailed (user_id : jval) (exc : HttpxError).

(** The world the cleanup runs in: the service's database, what will happen
    to the coming requests (nothing special once the list is used up), the
    requests sent so far and the log, both in order. *)
Record World := {
  db : Service.Db;
  faults : list Fault;
  sent : list Request;
  log : list Logged;
}.

Inductive Result :=
| Returned
| Raised (e : HttpxError).

Section Client.

(** How the framework reads a path segment that is not the text of an
    integer literal as the [int] parameter [user_id] (no answer: the
    request is refused before [delete_user] runs). *)
Variable int_of_text : string → option Z.

(** The [int] that the framework makes of the path segment [str(v)]. *)
Definition path_int (v : jval) : option Z :=
  match v with
  | JInt z => Some z
  | JNull => int_of_text "None"
  | JBool true => int_of_text "True"
  | JBool false => int_of_text "False"
  | JStr s => int_of_text s
  end.

(** The service at work on one request. *)
Definition serve (req : Request) (d : Service.Db) : Reply * Service.Db :=
  match req with
  | GetUsers =>
      match Service.list_users d with
      | Service.Ok s us => ({| status_code := s; json := user_json <$> us |}, d)
      | Service.HTTPException s _ => ({| status_code := s; json := [] |}, d)
      | Service.Unhandled _ => ({| status_code := 500; json := [] |}, d)
      end
  | DeleteUser v =>
      match path_int v with
      | None => ({| status_code := 422; json := [] |}, d)
      | Some i =>
          let '(a, d') := Service.delete_user i d in
          ({| status_code := Service.status_of a; json := [] |}, d')
      end
  end.

Definition send (req : Request) (w : World) : (HttpxError + Reply) * World :=
  let fault := match faults w with [] => Delivered | f :: _ => f end in
  let w1 := {| db := db w; faults := tail (faults w);
               sent := sent w ++ [req]; log := log w |} in
  match fault with
  | Delivered =>
      let '(r, d') := serve req (db w) in
      (inr r, {| db := d'; faults := faults w1; sent := sent w1; log := log w1 |})
  | ConnectError => (inl RequestError, w1)
  | ReplyLost =>
      let '(_, d') := serve req (db w) in
      (inl RequestError,
       {| db := d'; faults := faults w1; sent := sent w1; log := log w1 |})
  | ServerError => (inr {| status_code := 500; json := [] |}, w1)
  end.

Definition logging (entry : Logged) (w : World) : World :=
  {| db := db w; faults := faults w; sent := sent w; log := log w ++ [entry] |}.

(** [response.raise_for_status()] *)
Definition raise_for_status (r : Reply) : option HttpxError :=
  if (200 <=? status_code r) && (status_code r <? 300) then None
  else Some (HTTPStatusError (status_code r)).

(** [for user in users: ...] *)
Fixpoint delete_each (users : list (gmap string jval)) (w : World) : Result * World :=
  match users with
  | [] => (Returned, w)
  | user :: rest =>
      let user_id := dict_get "id" user in
      if negb (truthy user_id) then delete_each rest w
      else
        match send (DeleteUser user_id) w with
        | (inl exc, w1) =>
            if is_RequestError exc then
              delete_each rest (logging (LogDeleteFailed user_id exc) w1)
            else (Raised exc, w1)
        | (inr _, w1) => delete_each rest w1
        end
  end.

Definition _delete_all_users (w : World) : Result * World :=
  match send GetUsers w with
  | (inl exc, w1) =>
      if is_HTTPError exc then (Returned, logging (LogFetchFailed exc) w1)
      else (Raised exc, w1)
  | (inr response, w1) =>
      match raise_for_status response with
      | Some exc =>
          if is_HTTPError exc then (Returned, logging (LogFetchFailed exc) w1)
          else (Raised exc, w1)
      | None => delete_each (json response) w1
      end
  end.

(** The part of the [clean_database] fixture that runs before the test,
    and the part that runs after it. *)
Definition clean_database_before (w : World) : Result * World :=
  _delete_all_users (logging (LogInfo "Cleaning database (pre-test)") w).

Definition clean_database_after (w : World) : Result * World :=
  _delete_all_users (logging (LogInfo "Cleaning database (post-test)") w).

End Client.

(** No request fails: each one is delivered to the service, and the answer
    of its endpoint arrives. *)
Definition reliable (w : World) : Prop := Forall (λ f, f = Delivered) (faults w).

(** The users a cleanup cannot remove: those whose [id] is 0. *)
Definition survivors (t : gmap Z Service.UserRow) : gmap Z Service.UserRow :=
  filter (λ kv : Z * Service.UserRow, kv.1 = 0) t.

Definition entity_count (w : World) : nat := size (Service.users (db w)).

(** The requests of the test itself: they go through the test's own client,
    between the two halves of the fixture, and change the database. *)
Definition during_test (cs : list Service.Call) (w : World) : World :=
  {| db := (Service.calls cs (db w)).2; faults := faults w;
     sent := sent w; log := log w |}.

(** The [clean_database] fixture around a test: clean, run the test at the
    [yield], clean again. *)
Definition clean_database (int_of_text : string → option Z)
    (cs : list Service.Call) (w : World) : Result * World :=
  match clean_database_before int_of_text w with
  | (Returned, w1) => clean_database_after int_of_text (during_test cs w1)
  | (Raised exc, w1) => (Raised exc, w1)
  end.

End Cleanup.

(** ** Scenarios used as examples *)

(** Three probes that fail in different ways, then a healthy service. *)
Definition recovering_probe (i : nat) : Health.ProbeOutcome :=
  match i with
  | 0%nat => Health.RequestError
  | 1%nat => Health.Response 503
  | 2%nat => Health.RequestError
  | _ => Health.Response 200
  end.

(** A service that answers every probe with 503. *)
Definition unavailable_probe (i : nat) : Health.ProbeOutcome := Health.Response 503.

(** A service that is healthy from the start. *)
Definition healthy_probe (i : nat) : Health.ProbeOutcome := Health.Response 200.

(** The two request bodies of [test_transaction_rollback_on_error]. *)
Definition first_user : Service.UserCreate :=
  {| Service.uc_name := "User One"; Service.uc_email := "user1@example.com";
     Service.uc_is_active := true |}.

Definition duplicate_user : Service.UserCreate :=
  {| Service.uc_name := "User Two"; Service.uc_email := "user1@example.com";
     Service.uc_is_active := true |}.

(** A framework that reads no text but integer literals as an [int]. *)
Definition literals_only (text : string) : option Z := None.

Definition user_one : Service.UserRow :=
  {| Service.name := "User One"; Service.email := "user1@example.com";
     Service.is_active := true |}.

Definition user_two : Service.UserRow :=
  {| Service.name := "User Two"; Service.email := "user2@example.com";
     Service.is_active := false |}.

(** Two users are stored and the service cannot be reached for the next
    request. *)
Definition unreachable_world : Cleanup.World :=
  {| Cleanup.db :=
       {| Service.users := {[ 1 := user_one; 2 := user_two ]};
          Service.users_id_seq := 3 |};
     Cleanup.faults := [Cleanup.ConnectError];
     Cleanup.sent := [];
     Cleanup.log := [] |}.

(** The same store behind a service that answers every request. *)
Definition reachable_world : Cleanup.World :=
  {| Cleanup.db :=
       {| Service.users := {[ 1 := user_one; 2 := user_two ]};
          Service.users_id_seq := 3 |};
     Cleanup.faults := [];
     Cleanup.sent := [];
     Cleanup.log := [] |}.

(** [text=True] where the encoding of the locale is ASCII: a byte above 127
    is not text, and ["\r\n"] and ["\r"] are read as a line feed. *)
Fixpoint universal_newlines (s : string) : string :=
  match s with
  | EmptyString => EmptyString
  | String "013" (String "010" rest) => String "010" (universal_newlines rest)
  | String "013" rest => String "010" (universal_newlines rest)
  | String c rest => String c (universal_newlines rest)
  end.

Definition ascii_text (raw : list Byte.byte) : option string :=
  if forallb (λ b, (Byte.to_N b <? 128)%N) raw
  then Some (universal_newlines (String.string_of_list_byte raw))
  else None.

(** A host with that locale, on which [time.sleep] counts nanoseconds in 64
    bits: 9223372036 seconds is the longest delay it takes. *)
Definition ascii_host (run : list string → Docker.ProcOutcome) : Docker.Host :=
  {| Docker.run := run; Docker.text := ascii_text; Docker.sleep_max := 9223372036 |}.

(** A [docker] that knows no container. *)
Definition no_such_container : Docker.Host :=
  ascii_host (λ _, Docker.Exited 1 [] (String.list_byte_of_string "no such container")).

(** A [docker] that fails and writes a byte that is not text to stderr. *)
Definition garbled_stderr : Docker.Host :=
  ascii_host (λ _, Docker.Exited 1 [] [Byte.xff]).

(** A [docker] that does what it is asked and prints the container's name. *)
Definition obliging_docker : Docker.Host :=
  ascii_host
    (λ _, Docker.Exited 0 (String.list_byte_of_string "recovery_fastapi" ++ [Byte.x0a]) []).

(** A store in which one user has [id] 0, behind a service that answers the
    list request and cannot be reached afterwards. *)
Definition zero_id_world : Cleanup.World :=
  {| Cleanup.db :=
       {| Service.users := {[ 0 := user_one; 2 := user_two ]};
          Service.users_id_seq := 3 |};
     Cleanup.faults := [Cleanup.Delivered; Cleanup.ConnectError];
     Cleanup.sent := [];
     Cleanup.log := [] |}.

(** A second request body, with an email of its own. *)
Definition second_user : Service.UserCreate :=
  {| Service.uc_name := "User Two"; Service.uc_email := "user2@example.com";
     Service.uc_is_active := false |}.

(** A request body whose name holds a NUL character (a JSON string can:
    ["User\u0000One"]). *)
Definition nul_named_user : Service.UserCreate :=
  {| Service.uc_name := String "U" (String "000" "1");
     Service.uc_email := "user1@example.com";
     Service.uc_is_active := true |}.

(** * Properties *)

(** ** The definitions at work *)

Example wait_recovering_trace :
  Health._wait recovering_probe 5 1
  = (true,
     [Health.EvGet "/health" 5;
      Health.EvLog WARNING "Health check attempt %d failed" 1;
      Health.EvSleep 1;
      Health.EvGet "/health" 5;
      Health.EvSleep 1;
      Health.EvGet "/health" 5;
      Health.EvLog WARNING "Health check attempt %d failed" 3;
      Health.EvSleep 1;
      Health.EvGet "/health" 5;
      Health.EvLog INFO "Service healthy after %d attempts" 4]).
Proof. reflexivity. Qed.

Example wait_unavailable_trace :
  Health._wait unavailable_probe 2 1
  = (false,
     [Health.EvGet "/health" 5; Health.EvSleep 1;
      Health.EvGet "/health" 5; Health.EvSleep 1;
      Health.EvLog ERROR "Service did not recover after %d attempts" 2]).
Proof. reflexivity. Qed.

Example wait_negative_budget :
  Health._wait unavailable_probe (-1) 1
  = (false, [Health.EvLog ERROR "Service did not recover after %d attempts" (-1)]).
Proof. reflexivity. Qed.

Example stop_fails_trace :
  Docker.docker_control no_such_container (Docker.Stop "recovery_fastapi")
  = (Docker.Returned false,
     [Docker.EvLog INFO "Running docker command: %s" "docker stop recovery_fastapi";
      Docker.EvRun ["docker"; "stop"; "recovery_fastapi"];
      Docker.EvLog ERROR "Docker command failed: %s" "no such container"]).
Proof. reflexivity. Qed.

Example start_succeeds_trace :
  Docker.docker_control obliging_docker (Docker.Start "recovery_fastapi" 10)
  = (Docker.Returned true,
     [Docker.EvLog INFO "Running docker command: %s" "docker start recovery_fastapi";
      Docker.EvRun ["docker"; "start"; "recovery_fastapi"];
      Docker.EvSleep 10]).
Proof. reflexivity. Qed.

Example three_requests_counted :
  Metrics.counter "app_requests_total"
    (Metrics.record_requests [true; false; true] Metrics.initial_store).2 = Some 3
  ∧ Metrics.counter "app_requests_failed"
      (Metrics.record_requests [true; false; true] Metrics.initial_store).2 = Some 1.
Proof. by vm_compute. Qed.

Example cleanup_reachable_requests :
  Cleanup.sent (Cleanup._delete_all_users literals_only reachable_world).2
  = [Cleanup.GetUsers; Cleanup.DeleteUser (Cleanup.JInt 2);
     Cleanup.DeleteUser (Cleanup.JInt 1)]
  ∧ map_to_list
      (Service.users (Cleanup.db (Cleanup._delete_all_users literals_only reachable_world).2))
    = [].
Proof. by vm_compute. Qed.

Example cleanup_unreachable_log :
  Cleanup.sent (Cleanup._delete_all_users literals_only unreachable_world).2
  = [Cleanup.GetUsers]
  ∧ Cleanup.log (Cleanup._delete_all_users literals_only unreachable_world).2
    = [Cleanup.LogFetchFailed Cleanup.RequestError].
Proof. by vm_compute. Qed.

(** ** Python ranges *)

Lemma py_range_nil lo hi : hi ≤ lo → py_range lo hi = [].
Proof.
  intros Hle. unfold py_range.
  replace (Z.to_nat (hi - lo)) with 0%nat by lia. reflexivity.
Qed.

Lemma py_range_cons lo hi : lo < hi → py_range lo hi = lo :: py_range (lo + 1) hi.
Proof.
  intros Hlt. unfold py_range.
  replace (Z.to_nat (hi - lo)) with (S (Z.to_nat (hi - (lo + 1)))) by lia.
  cbn [seq fmap list_fmap]. f_equal; [lia|].
  rewrite <- seq_shift, <- list_fmap_compose.
  apply list_fmap_ext. intros _ i _. cbn. lia.
Qed.

Lemma length_py_range lo hi : length (py_range lo hi) = Z.to_nat (hi - lo).
Proof. unfold py_range. by rewrite length_fmap, length_seq. Qed.

Lemma filter_seq_S (P : nat → Prop) `{!∀ j, Decision (P j)} start n :
  filter P (seq (S start) n) = S <$> filter (λ j, P (S j)) (seq start n).
Proof.
  revert start. induction n as [|n IH]; intros start; [done|].
  cbn [seq]. rewrite !filter_cons, IH. by case_decide.
Qed.

(** ** The health wait *)

Section HealthFacts.
Import Health.

Variable probe : nat → ProbeOutcome.
Variable delay_seconds : Q.

Lemma probes_cons e t : probes (e :: t) = ((if is_get e then 1 else 0) + probes t)%nat.
Proof. unfold probes. rewrite filter_cons. by destruct e. Qed.

Lemma sleeps_cons e t : sleeps (e :: t) = ((if is_sleep e then 1 else 0) + sleeps t)%nat.
Proof. unfold sleeps. rewrite filter_cons. by destruct e. Qed.

Lemma probes_app t1 t2 : probes (t1 ++ t2) = (probes t1 + probes t2)%nat.
Proof. unfold probes. by rewrite filter_app, length_app. Qed.

Lemma sleeps_app t1 t2 : sleeps (t1 ++ t2) = (sleeps t1 + sleeps t2)%nat.
Proof. unfold sleeps. by rewrite filter_app, length_app. Qed.

Lemma recorded_attempts_app t1 t2 :
  recorded_attempts (t1 ++ t2) = recorded_attempts t1 ++ recorded_attempts t2.
Proof.
  induction t1 as [|e t1 IH]; [done|].
  destruct e as [| [] | ]; cbn; by rewrite ?IH.
Qed.

(** The loop when the probe number [issued + k] is the first to answer
    200 and the range is long enough to reach it. *)
Lemma wait_loop_first_success k : ∀ lo hi issued,
  lo + Z.of_nat k < hi →
  probe (issued + k)%nat = Response 200 →
  (∀ j, (j < k)%nat → probe (issued + j)%nat ≠ Response 200) →
  ∃ before,
    wait_loop probe delay_seconds (py_range lo hi) issued
    = (true,
       before ++
         [health_get;
          EvLog INFO "Service healthy after %d attempts" (lo + Z.of_nat k)])
    ∧ probes before = k ∧ sleeps before = k.
Proof.
  induction k as [|k IH]; intros lo hi issued Hlt Hok Hbad.
  - exists []. rewrite py_range_cons by lia. cbn [wait_loop].
    replace (issued + 0)%nat with issued in Hok by lia. rewrite Hok.
    replace (lo + Z.of_nat 0) with lo by lia. by cbn.
  - rewrite py_range_cons by lia. cbn [wait_loop].
    destruct (IH (lo + 1) hi (S issued)) as (before & Hrun & Hp & Hs).
    + lia.
    + by replace (S issued + k)%nat with (issued + S k)%nat by lia.
    + intros j Hj. replace (S issued + j)%nat with (issued + S j)%nat by lia.
      apply Hbad. lia.
    + rewrite Hrun. cbn [fst snd].
      replace (lo + 1 + Z.of_nat k) with (lo + Z.of_nat (S k)) by lia.
      pose proof (Hbad 0%nat ltac:(lia)) as H0.
      replace (issued + 0)%nat with issued in H0 by lia.
      destruct (probe issued) as [status_code|] eqn:Hp0.
      * destruct (Z.eqb_spec status_code 200) as [->|_]; [done|].
        exists (health_get :: EvSleep delay_seconds :: before).
        repeat split.
        -- rewrite !probes_cons. cbn. lia.
        -- rewrite !sleeps_cons. cbn. lia.
      * exists (health_get
                  :: EvLog WARNING "Health check attempt %d failed" lo
                  :: EvSleep delay_seconds :: before).
        repeat split.
        -- rewrite !probes_cons. cbn. lia.
        -- rewrite !sleeps_cons. cbn. lia.
Qed.

Lemma failed_to_connect_S lo issued n :
  failed_to_connect probe lo issued (S n)
  = (if decide (probe issued = RequestError) then [lo] else [])
      ++ failed_to_connect probe (lo + 1) (S issued) n.
Proof.
  unfold failed_to_connect. cbn [seq]. rewrite filter_cons.
  replace (issued + 0)%nat with issued by lia.
  assert (Htail :
    (λ j : nat, lo + Z.of_nat j)
      <$> filter (λ j, probe (issued + j)%nat = RequestError) (seq 1 n)
    = (λ j : nat, lo + 1 + Z.of_nat j)
      <$> filter (λ j, probe (S issued + j)%nat = RequestError) (seq 0 n)).
  { rewrite (filter_seq_S (λ j, probe (issued + j)%nat = RequestError)).
    rewrite <- list_fmap_compose.
    rewrite (list_filter_iff _ (λ j, probe (S issued + j)%nat = RequestError)).
    - apply list_fmap_ext. intros _ j _. cbn. lia.
    - intros j. cbn. by replace (issued + S j)%nat with (S issued + j)%nat by lia. }
  case_decide; cbn; rewrite Htail; [f_equal; lia|done].
Qed.

(** The loop when none of its probes answers 200. *)
Lemma wait_loop_all_fail n : ∀ lo hi issued,
  Z.to_nat (hi - lo) = n →
  (∀ j, (j < n)%nat → probe (issued + j)%nat ≠ Response 200) →
  let run := wait_loop probe delay_seconds (py_range lo hi) issued in
  run.1 = false ∧ probes run.2 = n ∧ sleeps run.2 = n
  ∧ recorded_attempts run.2 = failed_to_connect probe lo issued n
  ∧ reported_exhausted run.2 = [].
Proof.
  induction n as [|n IH]; intros lo hi issued Hn Hbad.
  - rewrite py_range_nil by lia. by cbn.
  - rewrite py_range_cons by lia. cbn [wait_loop].
    destruct (IH (lo + 1) hi (S issued)) as (Hr & Hp & Hs & Hrec & Hrep).
    + lia.
    + intros j Hj. replace (S issued + j)%nat with (issued + S j)%nat by lia.
      apply Hbad. lia.
    + pose proof (Hbad 0%nat ltac:(lia)) as H0.
      replace (issued + 0)%nat with issued in H0 by lia.
      rewrite failed_to_connect_S.
      destruct (probe issued) as [status_code|] eqn:Hp0.
      * destruct (Z.eqb_spec status_code 200) as [->|_]; [done|].
        cbn [fst snd]. rewrite !probes_cons, !sleeps_cons. cbn.
        rewrite decide_False by done. cbn. repeat split; auto; lia.
      * cbn [fst snd]. rewrite !probes_cons, !sleeps_cons. cbn.
        rewrite Hrec. repeat split; auto; lia.
Qed.

End HealthFacts.

Section HealthClaims.
Import Health.

Lemma reported_exhausted_app t1 t2 :
  reported_exhausted (t1 ++ t2) = reported_exhausted t1 ++ reported_exhausted t2.
Proof.
  induction t1 as [|e t1 IH]; [done|].
  destruct e as [| [] | ]; cbn; by rewrite ?IH.
Qed.

Lemma failed_to_connect_all probe n : ∀ lo issued,
  (∀ j, (j < n)%nat → probe (issued + j)%nat = RequestError) →
  failed_to_connect probe lo issued n = py_range lo (lo + Z.of_nat n).
Proof.
  induction n as [|n IH]; intros lo issued Hall.
  - by rewrite py_range_nil by lia.
  - rewrite failed_to_connect_S, py_range_cons by lia.
    pose proof (Hall 0%nat ltac:(lia)) as H0.
    replace (issued + 0)%nat with issued in H0 by lia.
    rewrite decide_True by done. cbn. f_equal.
    rewrite IH.
    + f_equal. lia.
    + intros j Hj. replace (S issued + j)%nat with (issued + S j)%nat by lia.
      apply Hall. lia.
Qed.

Lemma timeouts_wait_loop probe delay_seconds attempts : ∀ issued,
  let run := wait_loop probe delay_seconds attempts issued in
  omap timeout_of run.2 = replicate (probes run.2) client_timeout.
Proof.
  induction attempts as [|attempt rest IH]; intros issued; [done|].
  cbn [wait_loop]. specialize (IH (S issued)). cbn zeta in IH.
  destruct (probe issued) as [status_code|].
  - destruct (status_code =? 200); [done|].
    cbn [fst snd]. rewrite !probes_cons. cbn. by rewrite IH.
  - cbn [fst snd]. rewrite !probes_cons. cbn. by rewrite IH.
Qed.

End HealthClaims.

(** C1. For every [max_attempts >= 1]: when probe number [k+1] is the first to
    answer 200 and lies within the budget, [_wait] returns [True]; what it
    did is [k] probes and [k] sleeps, then the successful probe, then the
    "healthy" record with attempt number [k+1], and nothing after that: no
    further probe and no further sleep. *)
Theorem wait_returns_at_first_success
    (probe : nat → Health.ProbeOutcome) (max_attempts : Z) (delay_seconds : Q)
    (k : nat) :
  1 ≤ max_attempts →
  Z.of_nat k < max_attempts →
  probe k = Health.Response 200 →
  (∀ j, (j < k)%nat → probe j ≠ Health.Response 200) →
  ∃ before,
    Health._wait probe max_attempts delay_seconds
    = (true,
       before ++
         [Health.health_get;
          Health.EvLog INFO "Service healthy after %d attempts" (Z.of_nat k + 1)])
    ∧ Health.probes before = k
    ∧ Health.sleeps before = k
    ∧ Health.probes (Health._wait probe max_attempts delay_seconds).2 = S k
    ∧ Health.sleeps (Health._wait probe max_attempts delay_seconds).2 = k.
Proof.
  intros _ Hk Hok Hbad.
  destruct (wait_loop_first_success probe delay_seconds k 1 (max_attempts + 1) 0)
    as (before & Hrun & Hp & Hs); [lia|done|done|].
  exists before. unfold Health._wait. rewrite Hrun. cbn [fst snd].
  replace (1 + Z.of_nat k) with (Z.of_nat k + 1) by lia.
  repeat split; [done|done|..].
  - rewrite probes_app, !probes_cons, Hp. cbn. lia.
  - rewrite sleeps_app, !sleeps_cons, Hs. cbn. lia.
Qed.

Lemma wait_returns_at_first_success_witness :
  ∃ before,
    Health._wait recovering_probe 5 1
    = (true,
       before ++
         [Health.health_get;
          Health.EvLog INFO "Service healthy after %d attempts" (Z.of_nat 3 + 1)])
    ∧ Health.probes before = 3%nat
    ∧ Health.sleeps before = 3%nat
    ∧ Health.probes (Health._wait recovering_probe 5 1).2 = 4%nat
    ∧ Health.sleeps (Health._wait recovering_probe 5 1).2 = 3%nat.
Proof.
  apply (wait_returns_at_first_success recovering_probe 5 1 3).
  - lia.
  - lia.
  - reflexivity.
  - intros j Hj. destruct j as [|[|[|j]]]; [discriminate..|lia].
Defined.

(** C2 as stated fails, in two ways. A probe answered with a non-200 status
    is performed but leaves no per-attempt record: one failing attempt out of
    a budget of one is not recorded as attempt 1. And a negative budget is
    not the number of probes: none is performed. *)
Lemma wait_all_fail_count_differs :
  ¬ ((∀ j, unavailable_probe j ≠ Health.Response 200) →
     (Health._wait unavailable_probe 1 1).1 = false
     ∧ Z.of_nat (Health.probes (Health._wait unavailable_probe 1 1).2) = 1
     ∧ Health.recorded_attempts (Health._wait unavailable_probe 1 1).2 = [1])
  ∧ ¬ ((∀ j, unavailable_probe j ≠ Health.Response 200) →
       (Health._wait unavailable_probe (-1) 1).1 = false
       ∧ Z.of_nat (Health.probes (Health._wait unavailable_probe (-1) 1).2) = -1).
Proof.
  split.
  - intros H. destruct H as (_ & _ & Hrec); [done|].
    vm_compute in Hrec. discriminate.
  - intros H. destruct H as (_ & Hcount); [done|].
    vm_compute in Hcount. discriminate.
Qed.

(** C2, amended. When none of the probes within the budget answers 200,
    [_wait] returns [False] after exactly [max(0, max_attempts)] probes (and as
    many sleeps); the per-attempt records are those of the attempts that
    ended in a [RequestError], numbered from 1 in steps of 1 (all of
    [1..max_attempts] when every probe ends so); the closing record reports
    [max_attempts]. *)
Theorem wait_exhausts_budget
    (probe : nat → Health.ProbeOutcome) (max_attempts : Z) (delay_seconds : Q) :
  (∀ j, (j < Z.to_nat max_attempts)%nat → probe j ≠ Health.Response 200) →
  let run := Health._wait probe max_attempts delay_seconds in
  run.1 = false
  ∧ Health.probes run.2 = Z.to_nat max_attempts
  ∧ Health.sleeps run.2 = Z.to_nat max_attempts
  ∧ Health.recorded_attempts run.2
    = Health.failed_to_connect probe 1 0 (Z.to_nat max_attempts)
  ∧ ((∀ j, (j < Z.to_nat max_attempts)%nat → probe j = Health.RequestError) →
     Health.recorded_attempts run.2 = py_range 1 (max_attempts + 1))
  ∧ Health.reported_exhausted run.2 = [max_attempts].
Proof.
  intros Hbad.
  destruct (wait_loop_all_fail probe delay_seconds (Z.to_nat max_attempts)
              1 (max_attempts + 1) 0) as (Hr & Hp & Hs & Hrec & Hrep);
    [lia|done|].
  cbn zeta. unfold Health._wait. rewrite Hr. cbn [fst snd].
  rewrite probes_app, sleeps_app, recorded_attempts_app, reported_exhausted_app.
  rewrite !probes_cons, !sleeps_cons, Hp, Hs, Hrec, Hrep. cbn.
  rewrite app_nil_r.
  repeat split; [lia|lia|].
  intros Hall. rewrite failed_to_connect_all by done.
  destruct (decide (0 ≤ max_attempts)).
  - f_equal. lia.
  - by rewrite !py_range_nil by lia.
Qed.

Lemma wait_exhausts_budget_witness :
  let run := Health._wait recovering_probe 3 1 in
  run.1 = false
  ∧ Health.probes run.2 = Z.to_nat 3
  ∧ Health.sleeps run.2 = Z.to_nat 3
  ∧ Health.recorded_attempts run.2
    = Health.failed_to_connect recovering_probe 1 0 (Z.to_nat 3)
  ∧ ((∀ j, (j < Z.to_nat 3)%nat → recovering_probe j = Health.RequestError) →
     Health.recorded_attempts run.2 = py_range 1 (3 + 1))
  ∧ Health.reported_exhausted run.2 = [3].
Proof.
  apply (wait_exhausts_budget recovering_probe 3 1).
  intros j Hj. destruct j as [|[|[|j]]]; [discriminate..|].
  exfalso. revert Hj. simpl. lia.
Defined.

(** C3 as stated fails: with the default delay of 1.0 s the probe of a
    default call runs with a timeout that is not smaller than the delay. *)
Lemma wait_default_timeout_not_below_delay :
  ¬ (∀ timeout,
       timeout ∈ omap Health.timeout_of
         (Health._wait healthy_probe Health.default_max_attempts
            Health.default_delay_seconds).2 →
       (timeout < Health.default_delay_seconds)%Q).
Proof.
  intros H. specialize (H Health.client_timeout).
  assert (Hlt : (Health.client_timeout < Health.default_delay_seconds)%Q).
  { apply H. vm_compute. left. }
  revert Hlt. unfold Qlt. cbn. lia.
Qed.

(** C3, amended. Every probe of every call runs with the same timeout of
    5.0 s, whatever the delay; it is below the delay exactly when the delay
    exceeds 5.0 s, and it is above the default delay of 1.0 s. *)
Theorem wait_timeout_is_constant
    (probe : nat → Health.ProbeOutcome) (max_attempts : Z) (delay_seconds : Q) :
  let run := Health._wait probe max_attempts delay_seconds in
  omap Health.timeout_of run.2 = replicate (Health.probes run.2) Health.client_timeout
  ∧ ((Health.client_timeout < delay_seconds)%Q ↔ (5 < delay_seconds)%Q)
  ∧ (Health.default_delay_seconds < Health.client_timeout)%Q.
Proof.
  cbn zeta. split; [|split].
  - unfold Health._wait.
    pose proof (timeouts_wait_loop probe delay_seconds
                  (py_range 1 (max_attempts + 1)) 0) as Hloop.
    cbn zeta in Hloop.
    destruct (Health.wait_loop _ _ _ _) as [healthy t]. cbn [fst snd] in *.
    destruct healthy; cbn [fst snd]; [done|].
    rewrite omap_app, probes_app, !probes_cons, Hloop. cbn.
    by rewrite Nat.add_0_r, app_nil_r.
  - done.
  - unfold Qlt. cbn. lia.
Qed.

(** ** Process control *)

Section DockerFacts.
Import Docker.

Variable host : Host.

(** The outcome of a call, by what the process did. *)
Lemma run_docker_command_exited command wait_time returncode stdout stderr out err :
  run host command = Exited returncode stdout stderr →
  text host stdout = Some out →
  text host stderr = Some err →
  _run_docker_command host command wait_time
  = let started :=
      [EvLog INFO "Running docker command: %s" (String.concat " " command);
       EvRun command] in
    if returncode =? 0 then
      if 0 <? wait_time then
        if wait_time <=? sleep_max host then
          (Returned true, started ++ [EvSleep wait_time])
        else (Raised OverflowError, started)
      else (Returned true, started)
    else
      (Returned false,
       started ++ [EvLog ERROR "Docker command failed: %s" (str_or err "Unknown error")]).
Proof. intros Hrun Hout Herr. unfold _run_docker_command. by rewrite Hrun, Hout, Herr. Qed.

Lemma run_docker_command_garbled command wait_time returncode stdout stderr :
  run host command = Exited returncode stdout stderr →
  text host stdout = None ∨ text host stderr = None →
  _run_docker_command host command wait_time
  = (Raised UnicodeDecodeError,
     [EvLog INFO "Running docker command: %s" (String.concat " " command);
      EvRun command]).
Proof.
  intros Hrun Hnone. unfold _run_docker_command. rewrite Hrun.
  destruct Hnone as [-> | ->]; [done|]. by destruct (text host stdout).
Qed.

Lemma run_docker_command_not_started command wait_time :
  run host command = NotStarted →
  _run_docker_command host command wait_time
  = (Raised OSError,
     [EvLog INFO "Running docker command: %s" (String.concat " " command);
      EvRun command]).
Proof. intros Hrun. unfold _run_docker_command. by rewrite Hrun. Qed.

Lemma captured_text_exited returncode stdout stderr :
  captured_text host (Exited returncode stdout stderr) = true
  ↔ ∃ out err, text host stdout = Some out ∧ text host stderr = Some err.
Proof.
  cbn [captured_text]. rewrite andb_true_iff, !bool_decide_eq_true. split.
  - intros [[out Hout] [err Herr]]. eauto.
  - intros (out & err & -> & ->). eauto.
Qed.

Lemma captured_text_not returncode stdout stderr :
  captured_text host (Exited returncode stdout stderr) = false
  ↔ text host stdout = None ∨ text host stderr = None.
Proof.
  cbn [captured_text]. rewrite andb_false_iff, !bool_decide_eq_false.
  rewrite <- !eq_None_not_Some. done.
Qed.

Lemma docker_control_unfold (a : Action) :
  docker_control host a
  = _run_docker_command host (command_of a)
      (match a with Restart _ w | Start _ w => w | Stop _ => 0 end).
Proof. by destruct a. Qed.

End DockerFacts.

(** C8 fails on the code. [docker stop] exits with code 1 after writing to
    stderr a byte that is not text in the encoding of the locale:
    [subprocess.run] raises [UnicodeDecodeError] while it reads the captured
    streams, the function catches [CalledProcessError] only, and so the call
    raises; it returns no [False] and logs no error record. In the same way
    a command that exits with code 0 is not answered with [True] when
    [wait_time] is more than [time.sleep] takes: [OverflowError] leaves the
    function. *)
Theorem docker_command_raises_on_garbled_stderr :
  Docker.run garbled_stderr ["docker"; "stop"; "recovery_fastapi"]
  = Docker.Exited 1 [] [Byte.xff]
  ∧ Docker.stop_container garbled_stderr "recovery_fastapi"
    = (Docker.Raised Docker.UnicodeDecodeError,
       [Docker.EvLog INFO "Running docker command: %s" "docker stop recovery_fastapi";
        Docker.EvRun ["docker"; "stop"; "recovery_fastapi"]])
  ∧ Docker.docker_control garbled_stderr (Docker.Stop "recovery_fastapi")
    = Docker.stop_container garbled_stderr "recovery_fastapi"
  ∧ Docker.error_records
      (Docker.stop_container garbled_stderr "recovery_fastapi").2 = []
  ∧ Docker.exited_zero
      (Docker.run obliging_docker ["docker"; "restart"; "recovery_fastapi"]) = true
  ∧ Docker.restart_container obliging_docker "recovery_fastapi" (2 ^ 64)
    = (Docker.Raised Docker.OverflowError,
       [Docker.EvLog INFO "Running docker command: %s" "docker restart recovery_fastapi";
        Docker.EvRun ["docker"; "restart"; "recovery_fastapi"]]).
Proof. repeat split. Qed.

(** ** Metrics *)

Section MetricsFacts.
Import Metrics.

Lemma record_request_counters success h total failed :
  counters_ok h total failed →
  (record_request success h).1 = Returned ()
  ∧ counters_ok (record_request success h).2
      (total + 1) (if success then failed else failed + 1).
Proof.
  unfold counters_ok, counter, record_request.
  intros (Ht & Hf & Hle).
  destruct (h !! _metrics) as [d|] eqn:Hd; [|done]. cbn in Ht, Hf.
  rewrite Ht. destruct success; cbn [fst snd].
  - split; [done|]. rewrite lookup_insert_eq. cbn.
    rewrite lookup_insert_eq, lookup_insert_ne by done. repeat split; [done|lia..].
  - rewrite lookup_insert_ne by done. rewrite Hf. cbn [fst snd].
    split; [done|]. rewrite lookup_insert_eq. cbn.
    rewrite lookup_insert_eq, lookup_insert_ne by done.
    rewrite lookup_insert_eq. repeat split; lia.
Qed.

Lemma record_requests_counters outcomes : ∀ h total failed,
  counters_ok h total failed →
  (record_requests outcomes h).1 = Returned ()
  ∧ counters_ok (record_requests outcomes h).2
      (total + Z.of_nat (length outcomes))
      (failed + Z.of_nat (length (filter (λ ok, ok = false) outcomes))).
Proof.
  induction outcomes as [|success rest IH]; intros h total failed Hok.
  - cbn. rewrite !Z.add_0_r. by split.
  - cbn [record_requests].
    destruct (record_request_counters success h total failed Hok) as [Hret Hok'].
    destruct (record_request success h) as [[[]|e] h']; [|done].
    cbn [fst snd] in Hok'.
    destruct (IH _ _ _ Hok') as [Hret' Hok''].
    split; [done|].
    rewrite filter_cons.
    replace (total + Z.of_nat (length (success :: rest)))
      with (total + 1 + Z.of_nat (length rest)) by (cbn [length]; lia).
    destruct success.
    + rewrite decide_False by done. exact Hok''.
    + rewrite decide_True by done.
      replace (failed + Z.of_nat (length (false :: filter (λ ok, ok = false) rest)))
        with (failed + 1 + Z.of_nat (length (filter (λ ok, ok = false) rest)))
        by (cbn [length]; lia).
      exact Hok''.
Qed.

Lemma initial_counters_ok : counters_ok initial_store 0 0.
Proof. by vm_compute. Qed.

Lemma mutate_other r op h a : a ≠ r → mutate r op h !! a = h !! a.
Proof.
  intros Hne. unfold mutate. destruct (h !! r); [|done].
  by rewrite lookup_insert_ne.
Qed.

Lemma mutate_all_other r ops : ∀ h a, a ≠ r → mutate_all r ops h !! a = h !! a.
Proof.
  unfold mutate_all.
  induction ops as [|op ops IH]; intros h a Hne; [done|].
  cbn. rewrite IH by done. by apply mutate_other.
Qed.

Lemma get_metrics_fresh (h : gmap nat (gmap string Z)) d :
  h !! _metrics = Some d → fresh (dom h) ≠ _metrics ∧ h !! fresh (dom h) = None.
Proof.
  intros Hd. pose proof (is_fresh (dom h)) as Hfresh. split.
  - intros Heq. rewrite Heq in Hfresh. apply Hfresh, elem_of_dom. eauto.
  - by apply not_elem_of_dom.
Qed.

End MetricsFacts.

(** C5. After any sequence of [record_request] calls from the initial
    metrics, every call has returned, the total counter is the number of
    calls, the failed counter is the number of unsuccessful ones, and so
    [failed <= total]. The error rate computed from a total of 0 is 0: the
    division is not reached. *)
Theorem failed_requests_bounded_by_total (outcomes : list bool) :
  let run := Metrics.record_requests outcomes Metrics.initial_store in
  run.1 = Metrics.Returned ()
  ∧ (∃ total failed,
       Metrics.counter "app_requests_total" run.2 = Some total
       ∧ Metrics.counter "app_requests_failed" run.2 = Some failed
       ∧ failed ≤ total
       ∧ total = Z.of_nat (length outcomes)
       ∧ failed = Z.of_nat (length (filter (λ ok, ok = false) outcomes)))
  ∧ (∀ failed_requests, ChaosLoad.error_rate failed_requests 0 = 0%Q).
Proof.
  cbn zeta.
  destruct (record_requests_counters outcomes _ _ _ initial_counters_ok)
    as (Hret & Ht & Hf & Hle).
  split; [done|]. split; [|done].
  eexists _, _. split; [exact Ht|]. split; [exact Hf|]. lia.
Qed.

(** C10. [get_metrics] returns a new dictionary: its address is none of those
    in use, in particular not the one of [_metrics]; it holds the items of
    [_metrics]; every dictionary that was there, [_metrics] included, is as
    before. Whatever the caller then does to the returned dictionary,
    [_metrics] keeps its items, and later [record_request] and [get_metrics]
    calls behave on it as if the caller had done nothing. *)
Theorem get_metrics_returns_independent_copy
    (h : gmap nat (gmap string Z)) (d : gmap string Z) :
  h !! Metrics._metrics = Some d →
  ∃ snapshot,
    (Metrics.get_metrics h).1 = Metrics.Returned snapshot
    ∧ snapshot ≠ Metrics._metrics
    ∧ h !! snapshot = None
    ∧ (Metrics.get_metrics h).2 !! snapshot = Some d
    ∧ (∀ a, a ≠ snapshot → (Metrics.get_metrics h).2 !! a = h !! a)
    ∧ (∀ ops,
         let h' := Metrics.mutate_all snapshot ops (Metrics.get_metrics h).2 in
         h' !! Metrics._metrics = Some d
         ∧ (∀ key, Metrics.counter key h' = Metrics.counter key h)
         ∧ (∀ success,
              (Metrics.record_request success h').1
              = (Metrics.record_request success h).1
              ∧ (Metrics.record_request success h').2 !! Metrics._metrics
                = (Metrics.record_request success h).2 !! Metrics._metrics)
         ∧ (∃ later,
              (Metrics.get_metrics h').1 = Metrics.Returned later
              ∧ (Metrics.get_metrics h').2 !! later = Some d
              ∧ (Metrics.get_metrics h').2 !! Metrics._metrics = Some d)).
Proof.
  intros Hd. destruct (get_metrics_fresh h d Hd) as [Hne Hnone].
  assert (Hg : Metrics.get_metrics h
               = (Metrics.Returned (fresh (dom h)), <[fresh (dom h) := d]> h)).
  { unfold Metrics.get_metrics. by rewrite Hd. }
  exists (fresh (dom h)). rewrite Hg. cbn [fst snd].
  split; [done|]. split; [done|]. split; [done|].
  split; [by rewrite lookup_insert_eq|].
  split; [intros a Ha; by rewrite lookup_insert_ne|].
  intros ops.
  remember (Metrics.mutate_all (fresh (dom h)) ops (<[fresh (dom h) := d]> h))
    as h' eqn:Hh'.
  assert (Hm : h' !! Metrics._metrics = Some d).
  { subst h'. rewrite mutate_all_other by done. by rewrite lookup_insert_ne. }
  split; [done|]. split; [|split].
  - intros key. unfold Metrics.counter. by rewrite Hm, Hd.
  - intros success. unfold Metrics.record_request. rewrite Hm, Hd.
    destruct (d !! "app_requests_total") as [total|];
      [|cbn [fst snd]; by rewrite Hm, Hd].
    destruct success; cbn [fst snd].
    + by rewrite !lookup_insert_eq.
    + destruct (_ !! "app_requests_failed"); cbn [fst snd];
        by rewrite !lookup_insert_eq.
  - destruct (get_metrics_fresh h' d Hm) as [Hne' _].
    exists (fresh (dom h')). unfold Metrics.get_metrics. rewrite Hm. cbn [fst snd].
    split; [done|]. split; [by rewrite lookup_insert_eq|].
    by rewrite lookup_insert_ne.
Qed.

Lemma get_metrics_returns_independent_copy_witness :
  ∃ snapshot,
    (Metrics.get_metrics Metrics.initial_store).1 = Metrics.Returned snapshot
    ∧ snapshot ≠ Metrics._metrics
    ∧ Metrics.initial_store !! snapshot = None
    ∧ (Metrics.get_metrics Metrics.initial_store).2 !! snapshot
      = Some Metrics.initial_metrics
    ∧ (∀ a, a ≠ snapshot →
         (Metrics.get_metrics Metrics.initial_store).2 !! a
         = Metrics.initial_store !! a)
    ∧ (∀ ops,
         let h' :=
           Metrics.mutate_all snapshot ops
             (Metrics.get_metrics Metrics.initial_store).2 in
         h' !! Metrics._metrics = Some Metrics.initial_metrics
         ∧ (∀ key, Metrics.counter key h' = Metrics.counter key Metrics.initial_store)
         ∧ (∀ success,
              (Metrics.record_request success h').1
              = (Metrics.record_request success Metrics.initial_store).1
              ∧ (Metrics.record_request success h').2 !! Metrics._metrics
                = (Metrics.record_request success Metrics.initial_store).2
                    !! Metrics._metrics)
         ∧ (∃ later,
              (Metrics.get_metrics h').1 = Metrics.Returned later
              ∧ (Metrics.get_metrics h').2 !! later = Some Metrics.initial_metrics
              ∧ (Metrics.get_metrics h').2 !! Metrics._metrics
                = Some Metrics.initial_metrics)).
Proof.
  apply (get_metrics_returns_independent_copy
           Metrics.initial_store Metrics.initial_metrics).
  reflexivity.
Defined.

(** ** The users endpoints *)

Section ServiceFacts.
Import Service.

Lemma email_taken_spec e (t : gmap Z UserRow) :
  email_taken e t = true ↔ ∃ k r, t !! k = Some r ∧ email r = e.
Proof.
  unfold email_taken. rewrite bool_decide_eq_true, Exists_exists. split.
  - intros ([k r] & Hin & He). exists k, r. split; [|done].
    by apply elem_of_map_to_list.
  - intros (k & r & Hl & He). exists (k, r). split; [|done].
    by apply elem_of_map_to_list.
Qed.

Lemma email_taken_empty e : email_taken e ∅ = false.
Proof.
  apply not_true_is_false. rewrite email_taken_spec.
  intros (k & r & Hl & _). by rewrite lookup_empty in Hl.
Qed.

Lemma create_user_fresh user db :
  nul_free user = true →
  fits_integer (users_id_seq db) = true →
  email_taken (uc_email user) (users db) = false →
  users db !! users_id_seq db = None →
  create_user user db
  = (Ok 201 {| id := users_id_seq db;
               row := {| name := uc_name user; email := uc_email user;
                         is_active := uc_is_active user |} |},
     {| users := <[users_id_seq db :=
                     {| name := uc_name user; email := uc_email user;
                        is_active := uc_is_active user |}]> (users db);
        users_id_seq := users_id_seq db + 1 |}).
Proof.
  intros Hnul Hfits Hfree Hid. unfold create_user.
  rewrite Hnul, Hfits, Hfree, Hid. cbn [negb].
  rewrite bool_decide_eq_false_2; [done|]. by intros [? [=]].
Qed.

Lemma create_user_duplicate user db :
  nul_free user = true →
  fits_integer (users_id_seq db) = true →
  email_taken (uc_email user) (users db) = true →
  create_user user db
  = (HTTPException 400 "Email already registered",
     {| users := users db; users_id_seq := users_id_seq db + 1 |}).
Proof.
  intros Hnul Hfits Htaken. unfold create_user. by rewrite Hnul, Hfits, Htaken.
Qed.

(** The two ways to a 500: nothing is stored, nothing is taken from the
    sequence. *)
Lemma create_user_unsent user db :
  nul_free user = false → create_user user db = (Unhandled ValueError, db).
Proof. intros Hnul. unfold create_user. by rewrite Hnul. Qed.

Lemma create_user_exhausted user db :
  nul_free user = true →
  fits_integer (users_id_seq db) = false →
  create_user user db = (Unhandled DataError, db).
Proof. intros Hnul Hfits. unfold create_user. by rewrite Hnul, Hfits. Qed.

Lemma fits_integer_spec z :
  fits_integer z = true ↔ INTEGER_MIN ≤ z ≤ INTEGER_MAX.
Proof. unfold fits_integer. rewrite andb_true_iff, !Z.leb_le. done. Qed.

End ServiceFacts.

(** C4 as stated fails. On an empty table a create whose name holds a NUL
    character is answered 500, not 201, and stores nothing, so that a second
    create with the same email is answered 201, not 400. A create that finds
    the sequence past the range of the [Integer] column is answered 500 as
    well. And after a first create that is answered 201, a second one with
    the same email is answered 500, not 400, when its name holds a NUL
    character or when the first create took the last value of the
    sequence. *)
Lemma create_user_answers_500 :
  ¬ (Service.status_of (Service.create_user nul_named_user (Service.empty_db 1)).1
     = 201)
  ∧ ¬ (Service.uc_email first_user = Service.uc_email nul_named_user →
       Service.status_of
         (Service.create_user first_user
            (Service.create_user nul_named_user (Service.empty_db 1)).2).1 = 400)
  ∧ ¬ (Service.status_of
         (Service.create_user first_user (Service.empty_db 2147483648)).1 = 201)
  ∧ ¬ (Service.uc_email nul_named_user = Service.uc_email first_user →
       Service.status_of
         (Service.create_user nul_named_user
            (Service.create_user first_user (Service.empty_db 1)).2).1 = 400)
  ∧ ¬ (Service.uc_email duplicate_user = Service.uc_email first_user →
       Service.status_of
         (Service.create_user duplicate_user
            (Service.create_user first_user (Service.empty_db 2147483647)).2).1
       = 400).
Proof.
  repeat split.
  - vm_compute. discriminate.
  - intros H. specialize (H eq_refl). vm_compute in H. discriminate.
  - vm_compute. discriminate.
  - intros H. specialize (H eq_refl). vm_compute in H. discriminate.
  - intros H. specialize (H eq_refl). vm_compute in H. discriminate.
Qed.

(** C4, amended. On an empty table whose sequence has two values left in
    the range of the [Integer] column, [create_user] with a name and an
    email without NUL character answers 201 with the created user; a second
    [create_user] with the same email, and a name without NUL character,
    answers 400 and leaves the table as the first create left it;
    [list_users] then answers with exactly one user, the one created first.
    A first [create_user] whose name or email holds a NUL character, or that
    finds the sequence outside that range, is answered 500 and stores
    nothing. *)
Theorem duplicate_email_is_rejected_atomically
    (first second : Service.UserCreate) (db0 : Service.Db) :
  Service.users db0 = ∅ →
  Service.uc_email second = Service.uc_email first →
  let created :=
    {| Service.id := Service.users_id_seq db0;
       Service.row :=
         {| Service.name := Service.uc_name first;
            Service.email := Service.uc_email first;
            Service.is_active := Service.uc_is_active first |} |} in
  let db1 := (Service.create_user first db0).2 in
  let db2 := (Service.create_user second db1).2 in
  (Service.nul_free first = true →
   Service.nul_free second = true →
   Service.INTEGER_MIN ≤ Service.users_id_seq db0 →
   Service.users_id_seq db0 + 1 ≤ Service.INTEGER_MAX →
   (Service.create_user first db0).1 = Service.Ok 201 created
   ∧ (Service.create_user second db1).1
     = Service.HTTPException 400 "Email already registered"
   ∧ Service.users db2 = Service.users db1
   ∧ Service.list_users db2 = Service.Ok 200 [created]
   ∧ size (Service.users db2) = 1%nat)
  ∧ (Service.nul_free first = false
     ∨ Service.fits_integer (Service.users_id_seq db0) = false →
     Service.status_of (Service.create_user first db0).1 = 500
     ∧ db1 = db0
     ∧ Service.list_users db1 = Service.Ok 200 []).
Proof.
  intros Hempty Hsame. cbn zeta. split.
  - intros Hnul1 Hnul2 Hmin Hmax.
    rewrite (create_user_fresh first db0);
      [|done|apply fits_integer_spec; lia
       |rewrite Hempty; apply email_taken_empty|by rewrite Hempty, lookup_empty].
    cbn [fst snd]. rewrite (create_user_duplicate second); [|done|..].
    2:{ apply fits_integer_spec. cbn [Service.users_id_seq]. lia. }
    2:{ apply email_taken_spec. cbn [Service.users]. eexists _, _.
        split; [apply lookup_insert_eq|]. by cbn. }
    cbn [fst snd Service.users]. rewrite Hempty.
    split; [done|]. split; [done|]. split; [done|]. split.
    + unfold Service.list_users. cbn [Service.users].
      rewrite insert_empty, map_to_list_singleton. done.
    + by rewrite insert_empty, map_size_singleton.
  - intros Hbad.
    assert (Hrun : ∃ exc, Service.create_user first db0 = (Service.Unhandled exc, db0)).
    { destruct (Service.nul_free first) eqn:Hnul.
      - destruct Hbad as [?|Hfits]; [done|]. eexists.
        by apply create_user_exhausted.
      - eexists. by apply create_user_unsent. }
    destruct Hrun as [exc ->]. cbn [fst snd Service.status_of].
    split; [done|]. split; [done|].
    unfold Service.list_users. by rewrite Hempty, map_to_list_empty.
Qed.

Lemma duplicate_email_is_rejected_atomically_witness :
  let created :=
    {| Service.id := 1;
       Service.row :=
         {| Service.name := "User One"; Service.email := "user1@example.com";
            Service.is_active := true |} |} in
  let db1 := (Service.create_user first_user (Service.empty_db 1)).2 in
  let db2 := (Service.create_user duplicate_user db1).2 in
  ((Service.create_user first_user (Service.empty_db 1)).1 = Service.Ok 201 created
   ∧ (Service.create_user duplicate_user db1).1
     = Service.HTTPException 400 "Email already registered"
   ∧ Service.users db2 = Service.users db1
   ∧ Service.list_users db2 = Service.Ok 200 [created]
   ∧ size (Service.users db2) = 1%nat)
  ∧ Service.status_of (Service.create_user nul_named_user (Service.empty_db 1)).1
    = 500
  ∧ (Service.create_user nul_named_user (Service.empty_db 1)).2 = Service.empty_db 1
  ∧ Service.list_users (Service.create_user nul_named_user (Service.empty_db 1)).2
    = Service.Ok 200 [].
Proof.
  split.
  - apply (duplicate_email_is_rejected_atomically
             first_user duplicate_user (Service.empty_db 1));
      [reflexivity|reflexivity|reflexivity|reflexivity|..].
    + unfold Service.INTEGER_MIN. simpl. lia.
    + unfold Service.INTEGER_MAX. simpl. lia.
  - apply (duplicate_email_is_rejected_atomically
             nul_named_user duplicate_user (Service.empty_db 1));
      [reflexivity|reflexivity|].
    left. reflexivity.
Defined.

(** ** Cleanup *)

Section CleanupFacts.
Import Cleanup.

Variable int_of_text : string → option Z.

(** What a request does to the world, whatever happens to it on its way:
    it is noted, it uses up one entry of the plan, it logs nothing, it
    raises nothing but [RequestError], and the database is either as
    before or as the service left it. *)
Lemma send_frame req w :
  sent (send int_of_text req w).2 = sent w ++ [req]
  ∧ faults (send int_of_text req w).2 = tail (faults w)
  ∧ log (send int_of_text req w).2 = log w
  ∧ (∀ e, (send int_of_text req w).1 = inl e → e = RequestError)
  ∧ (db (send int_of_text req w).2 = db w
     ∨ db (send int_of_text req w).2 = (serve int_of_text req (db w)).2).
Proof.
  unfold send.
  destruct (faults w) as [|[] fs]; cbn [tail];
    destruct (serve int_of_text req (db w)) as [r d'] eqn:Hserve;
    cbn [fst snd sent faults log db];
    repeat split; eauto; try discriminate; by intros e [= <-].
Qed.

Lemma send_reliable req w :
  reliable w →
  (send int_of_text req w).1 = inr (serve int_of_text req (db w)).1
  ∧ db (send int_of_text req w).2 = (serve int_of_text req (db w)).2
  ∧ reliable (send int_of_text req w).2.
Proof.
  unfold reliable, send. intros Hrel.
  destruct (faults w) as [|f fs]; cbn [tail].
  - by destruct (serve int_of_text req (db w)).
  - inversion Hrel as [|? ? -> Hfs]; subst.
    by destruct (serve int_of_text req (db w)).
Qed.

(** [GET /users/] never changes the table, and answers with the users. *)
Lemma serve_get_users d :
  serve int_of_text GetUsers d
  = ({| status_code := 200;
        json := user_json
                  <$> ((λ kv : Z * Service.UserRow,
                          {| Service.id := kv.1; Service.row := kv.2 |})
                         <$> map_to_list (Service.users d)) |}, d).
Proof. done. Qed.

Lemma serve_delete_int i d :
  Service.users (serve int_of_text (DeleteUser (JInt i)) d).2
  = delete i (Service.users d)
  ∧ Service.users_id_seq (serve int_of_text (DeleteUser (JInt i)) d).2
    = Service.users_id_seq d.
Proof.
  unfold serve, path_int, Service.delete_user.
  destruct (Service.users d !! i) eqn:Hi; cbn [fst snd Service.users Service.users_id_seq].
  - done.
  - by rewrite delete_id.
Qed.

Lemma raise_for_status_200 js :
  raise_for_status {| status_code := 200; json := js |} = None.
Proof. done. Qed.

Lemma get_id_user_json u : dict_get "id" (user_json u) = JInt (Service.id u).
Proof. unfold dict_get, user_json. by rewrite lookup_insert_eq. Qed.

Lemma logging_frame entry w :
  db (logging entry w) = db w ∧ faults (logging entry w) = faults w
  ∧ sent (logging entry w) = sent w.
Proof. done. Qed.

(** The loop never lets an exception out, and sends one [DELETE] for each
    entry whose ["id"] is truthy, in order. *)
Lemma delete_each_requests users : ∀ w,
  (delete_each int_of_text users w).1 = Returned
  ∧ sent (delete_each int_of_text users w).2
    = sent w ++ (DeleteUser <$> filter (λ v, truthy v) (dict_get "id" <$> users)).
Proof.
  induction users as [|user rest IH]; intros w.
  - cbn. by rewrite app_nil_r.
  - cbn [delete_each fmap list_fmap]. rewrite filter_cons.
    destruct (truthy (dict_get "id" user)) eqn:Htruthy; cbn [negb].
    + rewrite decide_True by done.
      destruct (send_frame (DeleteUser (dict_get "id" user)) w)
        as (Hsent & _ & _ & Hexc & _).
      destruct (send int_of_text (DeleteUser (dict_get "id" user)) w)
        as [[exc|reply] w1]; cbn [fst snd] in *.
      * rewrite (Hexc exc eq_refl). cbn [is_RequestError].
        destruct (IH (logging (LogDeleteFailed (dict_get "id" user) RequestError) w1))
          as [Hret Hs].
        split; [done|]. rewrite Hs. cbn [logging sent]. rewrite Hsent.
        by rewrite <- app_assoc.
      * destruct (IH w1) as [Hret Hs]. split; [done|].
        rewrite Hs, Hsent. by rewrite <- app_assoc.
    + rewrite decide_False by (by intros ?). apply IH.
Qed.

(** The loop over what the list endpoint returned leaves a user whose
    [id] is 0 where it is, whatever happens to the requests. *)
Lemma delete_each_keeps_zero (us : list Service.UserResponse) : ∀ w,
  Service.users (db (delete_each int_of_text (user_json <$> us) w).2) !! 0
  = Service.users (db w) !! 0.
Proof.
  induction us as [|u rest IH]; intros w; [done|].
  cbn [delete_each fmap list_fmap]. rewrite get_id_user_json. cbn [truthy].
  destruct (Z.eqb_spec (Service.id u) 0) as [Hz|Hnz]; cbn [negb]; [apply IH|].
  destruct (send_frame (DeleteUser (JInt (Service.id u))) w)
    as (_ & _ & _ & Hexc & Hdb).
  assert (Hkeep :
    Service.users (db (send int_of_text (DeleteUser (JInt (Service.id u))) w).2) !! 0
    = Service.users (db w) !! 0).
  { destruct Hdb as [-> | ->]; [done|].
    destruct (serve_delete_int (Service.id u) (db w)) as [-> _].
    by rewrite lookup_delete_ne. }
  destruct (send int_of_text (DeleteUser (JInt (Service.id u))) w)
    as [[exc|reply] w1]; cbn [fst snd] in *.
  - rewrite (Hexc exc eq_refl). cbn [is_RequestError]. by rewrite IH.
  - by rewrite IH.
Qed.

End CleanupFacts.

Section CleanupRuns.
Import Cleanup.

Variable int_of_text : string → option Z.

Lemma survivors_lookup (t : gmap Z Service.UserRow) k :
  survivors t !! k = if decide (k = 0) then t !! 0 else None.
Proof.
  unfold survivors. case_decide as Hk.
  - subst k. destruct (t !! 0) as [r|] eqn:H0.
    + by apply map_lookup_filter_Some.
    + apply map_lookup_filter_None. by left.
  - apply map_lookup_filter_None. right. intros r _ Hp. by apply Hk.
Qed.

Lemma survivors_idemp (t : gmap Z Service.UserRow) : survivors (survivors t) = survivors t.
Proof.
  apply map_eq. intros k. rewrite !survivors_lookup.
  case_decide; [|done]. by rewrite decide_True.
Qed.

Lemma survivors_none (t : gmap Z Service.UserRow) : t !! 0 = None → survivors t = ∅.
Proof.
  intros H0. apply map_empty. intros k. rewrite survivors_lookup.
  by case_decide.
Qed.

Lemma listed_ids (t : gmap Z Service.UserRow) k :
  k ∈ Service.id
        <$> ((λ kv : Z * Service.UserRow,
                {| Service.id := kv.1; Service.row := kv.2 |}) <$> map_to_list t)
  ↔ is_Some (t !! k).
Proof.
  rewrite <- list_fmap_compose. rewrite list_elem_of_fmap. split.
  - intros ([k' r] & -> & Hin). cbn. apply elem_of_map_to_list in Hin. eauto.
  - intros [r Hr]. exists (k, r). split; [done|]. by apply elem_of_map_to_list.
Qed.

(** The loop over what the list endpoint returned, when every request is
    delivered: the users listed with a non-zero [id] are gone, the others
    are as before. *)
Lemma delete_each_reliable (us : list Service.UserResponse) : ∀ w,
  reliable w →
  reliable (delete_each int_of_text (user_json <$> us) w).2
  ∧ Service.users_id_seq (db (delete_each int_of_text (user_json <$> us) w).2)
    = Service.users_id_seq (db w)
  ∧ ∀ k,
      Service.users (db (delete_each int_of_text (user_json <$> us) w).2) !! k
      = if decide (k ≠ 0 ∧ k ∈ Service.id <$> us) then None
        else Service.users (db w) !! k.
Proof.
  induction us as [|u rest IH]; intros w Hrel.
  - cbn [fmap list_fmap delete_each snd]. repeat split; [done|].
    intros k. rewrite decide_False; [done|]. intros [_ Hin]. inversion Hin.
  - cbn [delete_each fmap list_fmap]. rewrite get_id_user_json. cbn [truthy].
    destruct (Z.eqb_spec (Service.id u) 0) as [Hz|Hnz]; cbn [negb].
    + destruct (IH w Hrel) as (Hrel' & Hseq & Hlook).
      repeat split; [done|done|]. intros k. rewrite Hlook.
      apply decide_ext. rewrite elem_of_cons, Hz. tauto.
    + destruct (send_reliable int_of_text (DeleteUser (JInt (Service.id u))) w Hrel)
        as (Hret & Hdb & Hrel1).
      destruct (serve_delete_int int_of_text (Service.id u) (db w)) as [Hdel Hseq1].
      destruct (send int_of_text (DeleteUser (JInt (Service.id u))) w)
        as [[exc|reply] w1]; cbn [fst snd] in *; [done|].
      destruct (IH w1 Hrel1) as (Hrel' & Hseq & Hlook).
      repeat split; [done|by rewrite Hseq, Hdb|].
      intros k. rewrite Hlook, Hdb, Hdel.
      destruct (decide (k = Service.id u)) as [->|Hne].
      * rewrite lookup_delete_eq.
        rewrite (decide_True (P := _ ∧ Service.id u ∈ _ :: _));
          [|split; [done|apply elem_of_cons; by left]].
        by case_decide.
      * rewrite lookup_delete_ne by done.
        apply decide_ext. rewrite elem_of_cons. tauto.
Qed.

(** One full cleanup when every request is delivered. *)
Lemma delete_all_users_reliable w :
  reliable w →
  (_delete_all_users int_of_text w).1 = Returned
  ∧ reliable (_delete_all_users int_of_text w).2
  ∧ Service.users (db (_delete_all_users int_of_text w).2)
    = survivors (Service.users (db w))
  ∧ Service.users_id_seq (db (_delete_all_users int_of_text w).2)
    = Service.users_id_seq (db w).
Proof.
  intros Hrel. unfold _delete_all_users.
  destruct (send_reliable int_of_text GetUsers w Hrel) as (Hret & Hdb & Hrel1).
  rewrite serve_get_users in Hret, Hdb. cbn [fst snd] in Hret, Hdb.
  destruct (send int_of_text GetUsers w) as [[exc|response] w1];
    cbn [fst snd] in *; [done|].
  injection Hret as ->. rewrite raise_for_status_200. cbn [json].
  destruct (delete_each_requests int_of_text
              (user_json
                 <$> ((λ kv : Z * Service.UserRow,
                         {| Service.id := kv.1; Service.row := kv.2 |})
                        <$> map_to_list (Service.users (db w)))) w1) as [Hnoraise _].
  destruct (delete_each_reliable
              ((λ kv : Z * Service.UserRow,
                  {| Service.id := kv.1; Service.row := kv.2 |})
                 <$> map_to_list (Service.users (db w))) w1 Hrel1)
    as (Hrel' & Hseq & Hlook).
  repeat split; [done|done| |by rewrite Hseq, Hdb].
  apply map_eq. intros k. rewrite Hlook, survivors_lookup, Hdb.
  destruct (decide (k = 0)) as [->|Hk].
  - rewrite decide_False; [done|]. by intros [? _].
  - case_decide as Hin; [done|].
    destruct (Service.users (db w) !! k) as [r|] eqn:Hr; [|done].
    exfalso. apply Hin. split; [done|]. apply listed_ids. eauto.
Qed.

(** A cleanup lets no exception out and leaves a user with [id] 0 where it
    is, whatever happens to the requests. *)
Lemma delete_all_users_any w :
  (_delete_all_users int_of_text w).1 = Returned
  ∧ Service.users (db (_delete_all_users int_of_text w).2) !! 0
    = Service.users (db w) !! 0
  ∧ (Service.users (db w) = ∅ →
     Service.users (db (_delete_all_users int_of_text w).2) = ∅).
Proof.
  unfold _delete_all_users.
  assert (Hsend :
    db (send int_of_text GetUsers w).2 = db w
    ∧ ∀ response, (send int_of_text GetUsers w).1 = inr response →
        json response = []
        ∨ json response
          = user_json
              <$> ((λ kv : Z * Service.UserRow,
                      {| Service.id := kv.1; Service.row := kv.2 |})
                     <$> map_to_list (Service.users (db w)))).
  { unfold send. destruct (faults w) as [|[] fs]; cbn [tail];
      rewrite ?serve_get_users; cbn [fst snd db]; split; try done;
      intros response [= <-]; cbn [json]; auto. }
  destruct Hsend as [Hdb Hjson].
  destruct (send int_of_text GetUsers w) as [[exc|response] w1];
    cbn [fst snd] in *.
  - cbn [is_HTTPError logging db fst snd]. rewrite Hdb. done.
  - destruct (raise_for_status response) as [exc|].
    + cbn [is_HTTPError logging db fst snd]. rewrite Hdb. done.
    + destruct (Hjson response eq_refl) as [-> | ->].
      * cbn [delete_each snd fst]. rewrite Hdb. done.
      * destruct (delete_each_requests int_of_text
                    (user_json
                       <$> ((λ kv : Z * Service.UserRow,
                               {| Service.id := kv.1; Service.row := kv.2 |})
                              <$> map_to_list (Service.users (db w)))) w1)
          as [Hnoraise _].
        split; [done|]. split.
        -- rewrite delete_each_keeps_zero. by rewrite Hdb.
        -- intros Hempty. rewrite Hempty, map_to_list_empty.
           cbn [fmap list_fmap delete_each snd]. by rewrite Hdb.
Qed.

End CleanupRuns.

Lemma db_ext (a b : Service.Db) :
  Service.users a = Service.users b →
  Service.users_id_seq a = Service.users_id_seq b →
  a = b.
Proof. destruct a, b. cbn. by intros -> ->. Qed.

(** C6 as stated fails: when the list request does not reach the service the
    reset logs and returns, and the two stored users are still there. *)
Lemma clean_database_unreachable_keeps_users :
  ¬ (Cleanup.entity_count
       (Cleanup.clean_database_before literals_only unreachable_world).2 = 0%nat).
Proof. vm_compute. discriminate. Qed.

(** C6, amended. When none of the requests of the reset fails (each one
    reaches the service and the answer of its endpoint reaches the harness:
    no connection error, no lost answer, no 500 in place of the answer), and
    no stored user has [id] 0, the reset that [clean_database] runs before
    the test returns normally and leaves no user in the table. When the list
    request fails in one of these ways, the reset returns normally all the
    same, having sent that one request and no [DELETE], with the database as
    it was and with one warning in the log, the one that carries the
    failure. *)
Theorem clean_database_empties_reachable_store
    (int_of_text : string → option Z) (w : Cleanup.World) :
  (Cleanup.reliable w →
   Service.users (Cleanup.db w) !! 0 = None →
   (Cleanup.clean_database_before int_of_text w).1 = Cleanup.Returned
   ∧ Service.users (Cleanup.db (Cleanup.clean_database_before int_of_text w).2) = ∅
   ∧ Cleanup.entity_count (Cleanup.clean_database_before int_of_text w).2 = 0%nat)
  ∧ (∀ fault later,
       Cleanup.faults w = fault :: later →
       fault ≠ Cleanup.Delivered →
       Cleanup.clean_database_before int_of_text w
       = (Cleanup.Returned,
          {| Cleanup.db := Cleanup.db w;
             Cleanup.faults := later;
             Cleanup.sent := Cleanup.sent w ++ [Cleanup.GetUsers];
             Cleanup.log :=
               Cleanup.log w
                 ++ [Cleanup.LogInfo "Cleaning database (pre-test)";
                     Cleanup.LogFetchFailed
                       (match fault with
                        | Cleanup.ServerError => Cleanup.HTTPStatusError 500
                        | _ => Cleanup.RequestError
                        end)] |})
       ∧ Cleanup.entity_count (Cleanup.clean_database_before int_of_text w).2
         = Cleanup.entity_count w).
Proof.
  split.
  - intros Hrel Hzero. unfold Cleanup.clean_database_before, Cleanup.entity_count.
    destruct (delete_all_users_reliable int_of_text
                (Cleanup.logging (Cleanup.LogInfo "Cleaning database (pre-test)") w))
      as (Hret & _ & Husers & _); [done|].
    rewrite Hret, Husers. cbn [Cleanup.logging Cleanup.db].
    rewrite survivors_none by done. by rewrite map_size_empty.
  - intros fault later Hfaults Hfault.
    assert (Hrun :
      Cleanup.clean_database_before int_of_text w
      = (Cleanup.Returned,
         {| Cleanup.db := Cleanup.db w;
            Cleanup.faults := later;
            Cleanup.sent := Cleanup.sent w ++ [Cleanup.GetUsers];
            Cleanup.log :=
              Cleanup.log w
                ++ [Cleanup.LogInfo "Cleaning database (pre-test)";
                    Cleanup.LogFetchFailed
                      (match fault with
                       | Cleanup.ServerError => Cleanup.HTTPStatusError 500
                       | _ => Cleanup.RequestError
                       end)] |})).
    { unfold Cleanup.clean_database_before, Cleanup._delete_all_users, Cleanup.send.
      cbn [Cleanup.logging Cleanup.faults Cleanup.db Cleanup.sent Cleanup.log].
      rewrite Hfaults. cbn [tail].
      destruct fault; [done|..]; rewrite ?serve_get_users;
        cbn [Cleanup.is_HTTPError Cleanup.raise_for_status Cleanup.status_code
               Cleanup.logging Cleanup.db Cleanup.faults Cleanup.sent Cleanup.log
               Z.leb Z.ltb Z.compare Pos.compare Pos.compare_cont andb];
        unfold Cleanup.logging;
        cbn [Cleanup.db Cleanup.faults Cleanup.sent Cleanup.log];
        by rewrite <- app_assoc. }
    rewrite Hrun. done.
Qed.

Lemma clean_database_empties_reachable_store_witness :
  ((Cleanup.clean_database_before literals_only reachable_world).1 = Cleanup.Returned
   ∧ Service.users
       (Cleanup.db (Cleanup.clean_database_before literals_only reachable_world).2) = ∅
   ∧ Cleanup.entity_count
       (Cleanup.clean_database_before literals_only reachable_world).2 = 0%nat)
  ∧ Cleanup.clean_database_before literals_only unreachable_world
    = (Cleanup.Returned,
       {| Cleanup.db := Cleanup.db unreachable_world;
          Cleanup.faults := [];
          Cleanup.sent := [Cleanup.GetUsers];
          Cleanup.log :=
            [Cleanup.LogInfo "Cleaning database (pre-test)";
             Cleanup.LogFetchFailed Cleanup.RequestError] |})
  ∧ Cleanup.entity_count
      (Cleanup.clean_database_before literals_only unreachable_world).2 = 2%nat.
Proof.
  split.
  - apply (proj1 (clean_database_empties_reachable_store literals_only
                    reachable_world)).
    + unfold Cleanup.reliable. simpl. apply Forall_nil_2.
    + reflexivity.
  - apply (proj2 (clean_database_empties_reachable_store literals_only
                    unreachable_world) Cleanup.ConnectError []).
    + reflexivity.
    + discriminate.
Defined.

(** C7. [_delete_all_users] on an empty table returns normally and leaves
    it empty (whatever happens to its requests); it never lets an exception
    out; and, the service answering, two calls in a row leave the database
    as one call does. *)
Theorem delete_all_users_idempotent (int_of_text : string → option Z) :
  (∀ w, Service.users (Cleanup.db w) = ∅ →
        (Cleanup._delete_all_users int_of_text w).1 = Cleanup.Returned
        ∧ Cleanup.entity_count (Cleanup._delete_all_users int_of_text w).2 = 0%nat)
  ∧ (∀ w, (Cleanup._delete_all_users int_of_text w).1 = Cleanup.Returned)
  ∧ (∀ w, Cleanup.reliable w →
        Cleanup.db
          (Cleanup._delete_all_users int_of_text
             (Cleanup._delete_all_users int_of_text w).2).2
        = Cleanup.db (Cleanup._delete_all_users int_of_text w).2).
Proof.
  split; [|split].
  - intros w Hempty.
    destruct (delete_all_users_any int_of_text w) as (Hret & _ & Hkeep).
    split; [done|]. unfold Cleanup.entity_count.
    by rewrite (Hkeep Hempty), map_size_empty.
  - intros w. apply (delete_all_users_any int_of_text w).
  - intros w Hrel.
    destruct (delete_all_users_reliable int_of_text w Hrel)
      as (_ & Hrel1 & Husers1 & Hseq1).
    destruct (delete_all_users_reliable int_of_text _ Hrel1)
      as (_ & _ & Husers2 & Hseq2).
    apply db_ext.
    + by rewrite Husers2, Husers1, survivors_idemp.
    + done.
Qed.

Lemma delete_all_users_idempotent_witness :
  Cleanup.db
    (Cleanup._delete_all_users literals_only
       (Cleanup._delete_all_users literals_only reachable_world).2).2
  = Cleanup.db (Cleanup._delete_all_users literals_only reachable_world).2.
Proof.
  apply (delete_all_users_idempotent literals_only).
  unfold Cleanup.reliable. simpl. apply Forall_nil_2.
Defined.

(** C9. The loop of [_delete_all_users] sends a [DELETE] exactly for the
    entries whose ["id"] is present and truthy, in the order of the list;
    an entry without ["id"], or with ["id"] 0, gets none. A stored user
    whose [id] is 0 is therefore still there after the reset, whatever
    happens to the requests. *)
Theorem delete_all_users_skips_falsy_ids (int_of_text : string → option Z) :
  (∀ users w,
     Cleanup.sent (Cleanup.delete_each int_of_text users w).2
     = Cleanup.sent w
         ++ (Cleanup.DeleteUser
               <$> filter (λ v, Cleanup.truthy v) (Cleanup.dict_get "id" <$> users)))
  ∧ (∀ user : gmap string Cleanup.jval,
       user !! "id" = None ∨ user !! "id" = Some (Cleanup.JInt 0) →
       Cleanup.truthy (Cleanup.dict_get "id" user) = false
       ∧ ∀ w, Cleanup.delete_each int_of_text [user] w = (Cleanup.Returned, w))
  ∧ (∀ w r,
       Service.users (Cleanup.db w) !! 0 = Some r →
       Service.users (Cleanup.db (Cleanup._delete_all_users int_of_text w).2) !! 0
       = Some r).
Proof.
  split; [|split].
  - intros users w. apply delete_each_requests.
  - intros user Hid.
    assert (Hfalsy : Cleanup.truthy (Cleanup.dict_get "id" user) = false).
    { unfold Cleanup.dict_get. by destruct Hid as [-> | ->]. }
    split; [done|]. intros w. cbn [Cleanup.delete_each]. by rewrite Hfalsy.
  - intros w r Hr.
    destruct (delete_all_users_any int_of_text w) as (_ & Hkeep & _).
    by rewrite Hkeep.
Qed.

Lemma delete_all_users_skips_falsy_ids_witness :
  Service.users
    (Cleanup.db (Cleanup._delete_all_users literals_only zero_id_world).2) !! 0
  = Some user_one.
Proof.
  apply (delete_all_users_skips_falsy_ids literals_only).
  reflexivity.
Defined.

(** * Further properties of the modelled code *)

(** ** The users endpoints: single calls *)

Section ServiceCalls.
Import Service.

Lemma create_user_cases user db :
  (nul_free user = true
   ∧ fits_integer (users_id_seq db) = true
   ∧ email_taken (uc_email user) (users db) = false
   ∧ users db !! users_id_seq db = None
   ∧ create_user user db
     = (Ok 201 {| id := users_id_seq db;
                  row := {| name := uc_name user; email := uc_email user;
                            is_active := uc_is_active user |} |},
        {| users := <[users_id_seq db :=
                        {| name := uc_name user; email := uc_email user;
                           is_active := uc_is_active user |}]> (users db);
           users_id_seq := users_id_seq db + 1 |}))
  ∨ (nul_free user = true
     ∧ fits_integer (users_id_seq db) = true
     ∧ (email_taken (uc_email user) (users db) = true
        ∨ is_Some (users db !! users_id_seq db))
     ∧ create_user user db
       = (HTTPException 400 "Email already registered",
          {| users := users db; users_id_seq := users_id_seq db + 1 |}))
  ∨ ((nul_free user = false ∨ fits_integer (users_id_seq db) = false)
     ∧ ∃ exc, create_user user db = (Unhandled exc, db)
              ∧ (exc = ValueError ↔ nul_free user = false)).
Proof.
  destruct (nul_free user) eqn:Hnul.
  2:{ right. right. split; [by left|]. exists ValueError.
      split; [by apply create_user_unsent|done]. }
  destruct (fits_integer (users_id_seq db)) eqn:Hfits.
  2:{ right. right. split; [by right|]. exists DataError.
      split; [by apply create_user_exhausted|done]. }
  destruct (email_taken (uc_email user) (users db)) eqn:Htaken.
  - right. left. repeat split; [by left|]. by apply create_user_duplicate.
  - destruct (users db !! users_id_seq db) as [r|] eqn:Hid.
    + right. left. repeat split; [right; eauto|].
      unfold create_user. rewrite Hnul, Hfits, Htaken, Hid. done.
    + left. repeat split; try done. by apply create_user_fresh.
Qed.

Lemma delete_user_cases user_id db :
  (users db !! user_id = None
   ∧ delete_user user_id db = (HTTPException 404 "User not found", db))
  ∨ (is_Some (users db !! user_id)
     ∧ delete_user user_id db
       = (Ok 200 ("User deleted successfully", user_id),
          {| users := delete user_id (users db);
             users_id_seq := users_id_seq db |})).
Proof.
  unfold delete_user. destruct (users db !! user_id) as [r|] eqn:Hr.
  - right. split; [eauto|done].
  - by left.
Qed.

End ServiceCalls.

(** X1. A user that [create_user] answers with is stored as answered: the
    status is 201, the fields are those of the request, [get_user] with the
    new [id] answers 200 with the same user, and [list_users] lists it. *)
Theorem create_then_get_round_trip
    (user : Service.UserCreate) (db : Service.Db)
    (status : Z) (created : Service.UserResponse) :
  (Service.create_user user db).1 = Service.Ok status created →
  status = 201
  ∧ Service.row created
    = {| Service.name := Service.uc_name user;
         Service.email := Service.uc_email user;
         Service.is_active := Service.uc_is_active user |}
  ∧ Service.get_user (Service.id created) (Service.create_user user db).2
    = Service.Ok 200 created
  ∧ ∃ listed,
      Service.list_users (Service.create_user user db).2 = Service.Ok 200 listed
      ∧ created ∈ listed.
Proof.
  intros Hok.
  destruct (create_user_cases user db)
    as [(_ & _ & _ & _ & Hrun) | [(_ & _ & _ & Hrun) | (_ & exc & Hrun & _)]];
    rewrite Hrun in Hok |- *; cbn [fst snd] in *; [|done|done].
  injection Hok as <- <-. cbn [Service.id Service.row].
  split; [done|]. split; [done|]. split.
  - unfold Service.get_user. cbn [Service.users]. by rewrite lookup_insert_eq.
  - eexists. split; [done|]. cbn [Service.users].
    apply list_elem_of_fmap. eexists (_, _). split; [done|].
    apply elem_of_map_to_list, lookup_insert_eq.
Qed.

Lemma create_then_get_round_trip_witness :
  201 = 201
  ∧ Service.row {| Service.id := 1; Service.row := user_one |}
    = {| Service.name := Service.uc_name first_user;
         Service.email := Service.uc_email first_user;
         Service.is_active := Service.uc_is_active first_user |}
  ∧ Service.get_user (Service.id {| Service.id := 1; Service.row := user_one |})
      (Service.create_user first_user (Service.empty_db 1)).2
    = Service.Ok 200 {| Service.id := 1; Service.row := user_one |}
  ∧ ∃ listed,
      Service.list_users (Service.create_user first_user (Service.empty_db 1)).2
      = Service.Ok 200 listed
      ∧ {| Service.id := 1; Service.row := user_one |} ∈ listed.
Proof.
  apply (create_then_get_round_trip first_user (Service.empty_db 1) 201
           {| Service.id := 1; Service.row := user_one |}).
  reflexivity.
Defined.

(** X2. [create_user] answers 201, 400 or 500 and nothing else; 500
    exactly when the name or the email holds a NUL character or the sequence
    is outside the range of the [Integer] column. It never removes or alters
    a stored user. When it answers 400 or 500 the table is exactly as
    before, whatever was in it; when it answers 201 the table has exactly
    one user more. The sequence moves on by one when the answer is 201 or
    400; for a body with a NUL character the whole database is as before. *)
Theorem create_user_is_atomic (user : Service.UserCreate) (db : Service.Db) :
  let answer := (Service.create_user user db).1 in
  let db' := (Service.create_user user db).2 in
  (Service.status_of answer = 201 ∨ Service.status_of answer = 400
   ∨ Service.status_of answer = 500)
  ∧ (Service.status_of answer = 500
     ↔ Service.nul_free user = false
       ∨ Service.fits_integer (Service.users_id_seq db) = false)
  ∧ (∀ i r, Service.users db !! i = Some r → Service.users db' !! i = Some r)
  ∧ (Service.status_of answer = 400 ∨ Service.status_of answer = 500 →
     Service.users db' = Service.users db)
  ∧ (Service.status_of answer = 201 →
     size (Service.users db') = S (size (Service.users db)))
  ∧ (Service.status_of answer = 201 ∨ Service.status_of answer = 400 →
     Service.users_id_seq db' = Service.users_id_seq db + 1)
  ∧ (Service.nul_free user = false →
     answer = Service.Unhandled Service.ValueError ∧ db' = db).
Proof.
  cbn zeta.
  destruct (create_user_cases user db)
    as [(Hnul & Hfits & _ & Hfree & ->)
       | [(Hnul & Hfits & _ & ->) | (Hbad & exc & -> & Hexc)]];
    cbn [fst snd Service.status_of Service.users Service.users_id_seq].
  - split; [by left|]. split.
    { split; [done|]. intros [?|?]; congruence. }
    split.
    + intros i r Hi. rewrite lookup_insert_ne; [done|]. intros <-. congruence.
    + split; [intros [?|?]; done|]. split; [intros _; by apply map_size_insert_None|].
      split; [done|]. congruence.
  - split; [right; by left|]. split.
    { split; [done|]. intros [?|?]; congruence. }
    repeat split; try done. all: congruence.
  - split; [right; by right|]. split; [done|].
    split; [done|]. split; [done|]. split; [done|].
    split; [intros [?|?]; done|].
    intros Hnul. split; [|done]. f_equal. by apply Hexc.
Qed.

(** X3. [delete_user] of a stored [id] answers 200, removes that user and no
    other, and the table has one user less; [get_user] then answers 404 for
    it, and so does a second [delete_user]. For an [id] that is not stored
    it answers 404 and changes nothing. *)
Theorem delete_user_removes_exactly_one (user_id : Z) (db : Service.Db) :
  let answer := (Service.delete_user user_id db).1 in
  let db' := (Service.delete_user user_id db).2 in
  (is_Some (Service.users db !! user_id) →
   Service.status_of answer = 200
   ∧ S (size (Service.users db')) = size (Service.users db))
  ∧ (Service.users db !! user_id = None →
     Service.status_of answer = 404 ∧ db' = db)
  ∧ (∀ i, i ≠ user_id → Service.users db' !! i = Service.users db !! i)
  ∧ Service.get_user user_id db' = Service.HTTPException 404 "User not found"
  ∧ Service.delete_user user_id db'
    = (Service.HTTPException 404 "User not found", db')
  ∧ Service.users_id_seq db' = Service.users_id_seq db.
Proof.
  cbn zeta.
  destruct (delete_user_cases user_id db) as [(Hnone & ->) | ([r Hr] & ->)];
    cbn [fst snd Service.status_of Service.users Service.users_id_seq].
  - split; [intros [? ?]; congruence|]. split; [done|]. split; [done|].
    unfold Service.get_user, Service.delete_user. by rewrite Hnone.
  - split.
    + intros _. split; [done|].
      rewrite map_size_delete_Some by eauto.
      pose proof (map_size_ne_0_lookup_2 (Service.users db) user_id) as Hsize.
      destruct (size (Service.users db)); [exfalso; apply Hsize; eauto|done].
    + split; [congruence|]. split; [intros i Hi; by rewrite lookup_delete_ne|].
      unfold Service.get_user, Service.delete_user. cbn [Service.users].
      by rewrite lookup_delete_eq.
Qed.

(** ** The users endpoints: runs of calls *)

Section ServiceRuns.
Import Service.

Lemma email_taken_insert e i r (t : gmap Z UserRow) :
  t !! i = None →
  email_taken e (<[i := r]> t) = true ↔ email r = e ∨ email_taken e t = true.
Proof.
  intros Hfree. rewrite !email_taken_spec. split.
  - intros (k & r' & Hk & He). destruct (decide (k = i)) as [->|Hne].
    + rewrite lookup_insert_eq in Hk. injection Hk as <-. by left.
    + rewrite lookup_insert_ne in Hk by done. right. eauto.
  - intros [He | (k & r' & Hk & He)].
    + exists i, r. by rewrite lookup_insert_eq.
    + exists k, r'. split; [|done]. rewrite lookup_insert_ne; [done|congruence].
Qed.

Lemma ids_below_seq_free db : ids_below_seq db → users db !! users_id_seq db = None.
Proof.
  intros Hbelow. destruct (users db !! users_id_seq db) as [r|] eqn:Hr; [|done].
  specialize (Hbelow (users_id_seq db)). rewrite Hr in Hbelow.
  specialize (Hbelow ltac:(eauto)). lia.
Qed.

(** On a database whose ids came from the sequence, the only way to a 400
    is a stored email. *)
Lemma create_user_below_seq user db :
  ids_below_seq db →
  (nul_free user = true
   ∧ fits_integer (users_id_seq db) = true
   ∧ email_taken (uc_email user) (users db) = false
   ∧ status_of (create_user user db).1 = 201
   ∧ users (create_user user db).2
     = <[users_id_seq db :=
           {| name := uc_name user; email := uc_email user;
              is_active := uc_is_active user |}]> (users db)
   ∧ users_id_seq (create_user user db).2 = users_id_seq db + 1)
  ∨ (nul_free user = true
     ∧ fits_integer (users_id_seq db) = true
     ∧ email_taken (uc_email user) (users db) = true
     ∧ status_of (create_user user db).1 = 400
     ∧ users (create_user user db).2 = users db
     ∧ users_id_seq (create_user user db).2 = users_id_seq db + 1)
  ∨ ((nul_free user = false ∨ fits_integer (users_id_seq db) = false)
     ∧ status_of (create_user user db).1 = 500
     ∧ (create_user user db).2 = db).
Proof.
  intros Hbelow. pose proof (ids_below_seq_free db Hbelow) as Hfree.
  destruct (create_user_cases user db)
    as [(Hnul & Hfits & Hnew & _ & ->)
       | [(Hnul & Hfits & [Htaken | [r Hr]] & ->) | (Hbad & exc & -> & _)]];
    cbn [fst snd status_of users users_id_seq].
  - by left.
  - right. by left.
  - congruence.
  - right. by right.
Qed.

Lemma create_user_keeps_below_seq user db :
  ids_below_seq db → ids_below_seq (create_user user db).2.
Proof.
  intros Hbelow i.
  destruct (create_user_cases user db)
    as [(_ & _ & _ & _ & ->) | [(_ & _ & _ & ->) | (_ & exc & -> & _)]];
    cbn [snd users users_id_seq].
  - destruct (decide (i = users_id_seq db)) as [->|Hne]; [lia|].
    rewrite lookup_insert_ne by done. intros Hi. specialize (Hbelow i Hi). lia.
  - intros Hi. specialize (Hbelow i Hi). lia.
  - apply Hbelow.
Qed.

Lemma create_user_keeps_unique user db :
  emails_unique (users db) → emails_unique (users (create_user user db).2).
Proof.
  intros Huniq.
  destruct (create_user_cases user db)
    as [(_ & _ & Hnew & Hfree & ->) | [(_ & _ & _ & ->) | (_ & exc & -> & _)]];
    cbn [snd users]; [|done|done].
  assert (Hfresh : ∀ k r, users db !! k = Some r → email r ≠ uc_email user).
  { intros k r Hk He. apply not_true_iff_false in Hnew. apply Hnew.
    apply email_taken_spec. eauto. }
  intros i j r s Hi Hj Heq.
  destruct (decide (i = users_id_seq db)) as [->|Hi'];
    destruct (decide (j = users_id_seq db)) as [->|Hj']; [done|..].
  - rewrite lookup_insert_eq in Hi. rewrite lookup_insert_ne in Hj by done.
    injection Hi as <-. cbn in Heq. exfalso. by apply (Hfresh j s).
  - rewrite lookup_insert_eq in Hj. rewrite lookup_insert_ne in Hi by done.
    injection Hj as <-. cbn in Heq. exfalso. by apply (Hfresh i r).
  - rewrite lookup_insert_ne in Hi, Hj by done. by apply (Huniq i j r s).
Qed.

Lemma delete_user_keeps user_id db :
  (ids_below_seq db → ids_below_seq (delete_user user_id db).2)
  ∧ (emails_unique (users db) → emails_unique (users (delete_user user_id db).2)).
Proof.
  unfold ids_below_seq, emails_unique.
  destruct (delete_user_cases user_id db) as [(_ & ->) | (_ & ->)];
    cbn [snd users users_id_seq]; [done|]. split.
  - intros Hbelow i [r Hi]. apply Hbelow.
    apply lookup_delete_Some in Hi as [_ Hi]. eauto.
  - intros Huniq i j r s Hi Hj.
    apply lookup_delete_Some in Hi as [_ Hi].
    apply lookup_delete_Some in Hj as [_ Hj]. by apply (Huniq i j r s).
Qed.

Lemma calls_keep cs : ∀ db,
  ids_below_seq db → emails_unique (users db) →
  ids_below_seq (calls cs db).2 ∧ emails_unique (users (calls cs db).2).
Proof.
  induction cs as [|c rest IH]; intros db Hbelow Huniq; [done|].
  cbn [calls].
  assert (Hstep : ids_below_seq (call c db).2 ∧ emails_unique (users (call c db).2)).
  { destruct c as [user|user_id]; cbn [call snd].
    - split; [by apply create_user_keeps_below_seq|by apply create_user_keeps_unique].
    - split; by apply delete_user_keeps. }
  destruct (call c db) as [status db1]. cbn [snd] in Hstep.
  destruct Hstep as [Hbelow1 Huniq1]. specialize (IH db1 Hbelow1 Huniq1).
  by destruct (calls rest db1) as [statuses db2].
Qed.

Lemma empty_db_invariants next_id :
  ids_below_seq (empty_db next_id) ∧ emails_unique (users (empty_db next_id)).
Proof.
  split.
  - intros i [r Hi]. cbn in Hi. by rewrite lookup_empty in Hi.
  - intros i j r s Hi. cbn in Hi. by rewrite lookup_empty in Hi.
Qed.

(** A run of creates with room in the sequence: a create whose body holds a
    NUL character is answered 500 and leaves no trace; any other one is
    refused with 400 exactly when its email was in the table at the start
    or came earlier in the run in a body without NUL character. *)
Lemma creates_run (l : list UserCreate) : ∀ db,
  ids_below_seq db →
  INTEGER_MIN ≤ users_id_seq db →
  users_id_seq db + Z.of_nat (length l) ≤ INTEGER_MAX + 1 →
  ids_below_seq (calls (Create <$> l) db).2
  ∧ (∀ e, email_taken e (users (calls (Create <$> l) db).2) = true
          ↔ email_taken e (users db) = true
            ∨ e ∈ uc_email <$> filter (λ u, nul_free u) l)
  ∧ (∀ k user, l !! k = Some user →
       (calls (Create <$> l) db).1 !! k
       = Some (if nul_free user then
                 if decide (email_taken (uc_email user) (users db) = true
                            ∨ uc_email user
                              ∈ uc_email <$> filter (λ u, nul_free u) (take k l))
                 then 400 else 201
               else 500))
  ∧ size (users (calls (Create <$> l) db).2)
    = (size (users db)
       + length (filter (λ status : Z, (status = 201)%Z)
                   (calls (Create <$> l) db).1))%nat.
Proof.
  induction l as [|user rest IH]; intros db Hbelow Hmin Hroom.
  - cbn. repeat split; try done.
    + intros He. by left.
    + intros [He|He]; [done|]. by apply elem_of_nil in He.
  - cbn [fmap list_fmap calls call].
    pose proof (create_user_keeps_below_seq user db Hbelow) as Hbelow1.
    pose proof (ids_below_seq_free db Hbelow) as Hfree.
    assert (Hfits : fits_integer (users_id_seq db) = true).
    { apply fits_integer_spec. cbn [length] in Hroom. lia. }
    assert (Hseq1 : users_id_seq db ≤ users_id_seq (create_user user db).2
                    ≤ users_id_seq db + 1).
    { destruct (create_user_below_seq user db Hbelow)
        as [(_ & _ & _ & _ & _ & ->) | [(_ & _ & _ & _ & _ & ->) | (_ & _ & ->)]];
        lia. }
    assert (Htaken1 : ∀ e, email_taken e (users (create_user user db).2) = true
                       ↔ email_taken e (users db) = true
                         ∨ (nul_free user = true ∧ e = uc_email user)).
    { intros e.
      destruct (create_user_below_seq user db Hbelow)
        as [(Hnul & _ & Hnew & _ & Hus & _)
           | [(Hnul & _ & Hold & _ & Hus & _) | ([Hnul|Hbad] & _ & Hdb)]].
      - rewrite Hus, email_taken_insert by done. cbn [email].
        split; [intros [H|H]; [by right|by left]|intros [H|[_ H]]; [by right|by left]].
      - rewrite Hus. split; [by left|]. intros [He | [_ ->]]; done.
      - rewrite Hdb. split; [by left|]. intros [He | [? _]]; [done|congruence].
      - congruence. }
    assert (Hstatus :
      status_of (create_user user db).1
      = if nul_free user then
          if decide (email_taken (uc_email user) (users db) = true) then 400 else 201
        else 500).
    { destruct (create_user_below_seq user db Hbelow)
        as [(Hnul & _ & Hnew & Hst & _)
           | [(Hnul & _ & Hold & Hst & _) | ([Hnul|Hbad] & Hst & _)]];
        rewrite Hst; [rewrite Hnul..|congruence].
      - rewrite decide_False; [done|congruence].
      - by rewrite decide_True.
      - done. }
    assert (Hsize1 :
      size (users (create_user user db).2)
      = (size (users db)
         + (if decide (status_of (create_user user db).1 = 201%Z) then 1 else 0))%nat).
    { destruct (create_user_below_seq user db Hbelow)
        as [(_ & _ & _ & Hst & Hus & _)
           | [(_ & _ & _ & Hst & Hus & _) | (_ & Hst & Hdb)]]; rewrite Hst.
      - rewrite Hus, map_size_insert_None by done. rewrite decide_True by done. lia.
      - rewrite Hus, decide_False by done. lia.
      - rewrite Hdb, decide_False by done. lia. }
    destruct (IH (create_user user db).2 Hbelow1) as (Hb & Ht & Hs & Hn).
    { lia. }
    { cbn [length] in Hroom. lia. }
    destruct (calls (Create <$> rest) (create_user user db).2) as [statuses db2].
    cbn [fst snd] in *. split; [done|]. split; [|split].
    + intros e. rewrite Ht, Htaken1, filter_cons.
      destruct (nul_free user) eqn:Hnul.
      * rewrite decide_True by done. cbn [fmap list_fmap].
        rewrite elem_of_cons. tauto.
      * rewrite decide_False by (by intros ?). split; [|tauto].
        intros [[?|[? _]]|?]; [by left|congruence|by right].
    + intros [|k] u Hk; cbn in Hk.
      * injection Hk as <-. cbn [lookup list_lookup take fmap list_fmap].
        rewrite Hstatus. f_equal. destruct (nul_free user); [|done].
        apply decide_ext.
        split; [by left|]. intros [H|H]; [done|]. by apply elem_of_nil in H.
      * cbn [take]. rewrite <- lookup_tail. cbn [tail].
        rewrite (Hs k u Hk). f_equal. destruct (nul_free u); [|done].
        apply decide_ext. rewrite Htaken1, filter_cons.
        destruct (nul_free user) eqn:Hnul.
        -- rewrite decide_True by done. cbn [fmap list_fmap].
           rewrite elem_of_cons. tauto.
        -- rewrite decide_False by (by intros ?). split; [|tauto].
           intros [[?|[? _]]|?]; [by left|congruence|by right].
    + rewrite filter_cons, Hn, Hsize1.
      repeat case_decide; cbn [length]; try lia; congruence.
Qed.

End ServiceRuns.

(** X4. Whatever creates and deletes have been served since the table was
    empty, no two stored users share an email and every stored [id] is below
    the next value of the sequence. *)
Theorem calls_keep_emails_unique (cs : list Service.Call) (next_id : Z) :
  let db := (Service.calls cs (Service.empty_db next_id)).2 in
  Service.emails_unique (Service.users db) ∧ Service.ids_below_seq db.
Proof.
  cbn zeta. destruct (empty_db_invariants next_id) as [Hbelow Huniq].
  destruct (calls_keep cs _ Hbelow Huniq). by split.
Qed.

(** X5. On a database reached from the empty table by creates and deletes,
    the answer of [create_user] is decided as follows: 500 exactly when the
    name or the email of the request holds a NUL character or the sequence
    is outside the range of the [Integer] column; otherwise 400 exactly when
    some stored user has the email of the request, and 201 exactly when none
    has. *)
Theorem create_refused_iff_email_stored
    (cs : list Service.Call) (next_id : Z) (user : Service.UserCreate) :
  let db := (Service.calls cs (Service.empty_db next_id)).2 in
  let sendable :=
    Service.nul_free user && Service.fits_integer (Service.users_id_seq db) in
  (Service.status_of (Service.create_user user db).1 = 500 ↔ sendable = false)
  ∧ (Service.status_of (Service.create_user user db).1 = 400
     ↔ sendable = true
       ∧ ∃ i r, Service.users db !! i = Some r
                ∧ Service.email r = Service.uc_email user)
  ∧ (Service.status_of (Service.create_user user db).1 = 201
     ↔ sendable = true
       ∧ ¬ ∃ i r, Service.users db !! i = Some r
                  ∧ Service.email r = Service.uc_email user).
Proof.
  cbn zeta. destruct (empty_db_invariants next_id) as [Hbelow Huniq].
  destruct (calls_keep cs _ Hbelow Huniq) as [Hbelow' _].
  rewrite <- email_taken_spec.
  destruct (create_user_below_seq user _ Hbelow')
    as [(Hnul & Hfits & Hnew & Hst & _)
       | [(Hnul & Hfits & Hold & Hst & _) | (Hbad & Hst & _)]]; rewrite Hst.
  - rewrite Hnul, Hfits, Hnew. cbn [andb].
    repeat split; try done; try lia; try (intros [_ ?]; done).
  - rewrite Hnul, Hfits, Hold. cbn [andb].
    repeat split; try done; try lia; try (intros [_ ?]; done).
  - assert (Hsend : Service.nul_free user
                    && Service.fits_integer
                         (Service.users_id_seq
                            (Service.calls cs (Service.empty_db next_id)).2) = false).
    { apply andb_false_iff. done. }
    rewrite Hsend. repeat split; try done; try lia; try (intros [? _]; done).
Qed.

(** X6. A run of creates on an empty table, with room in the sequence for
    all of them. A create whose body holds a NUL character is answered 500
    and does not count. Each other one is answered 201 unless its email came
    earlier in the run in a body without NUL character, in which case it is
    answered 400. The table ends with one user per 201, and the stored
    emails are those of the bodies without NUL character. *)
Theorem first_create_of_an_email_wins (l : list Service.UserCreate) (next_id : Z) :
  Service.INTEGER_MIN ≤ next_id →
  next_id + Z.of_nat (length l) ≤ Service.INTEGER_MAX + 1 →
  let run := Service.calls (Service.Create <$> l) (Service.empty_db next_id) in
  (∀ k user, l !! k = Some user →
     run.1 !! k
     = Some (if Service.nul_free user then
               if decide (Service.uc_email user
                          ∈ Service.uc_email
                              <$> filter (λ u, Service.nul_free u) (take k l))
               then 400 else 201
             else 500))
  ∧ size (Service.users run.2)
    = length (filter (λ status : Z, status = 201) run.1)
  ∧ (∀ e, (∃ i r, Service.users run.2 !! i = Some r ∧ Service.email r = e)
          ↔ e ∈ Service.uc_email <$> filter (λ u, Service.nul_free u) l).
Proof.
  intros Hmin Hroom. cbn zeta. destruct (empty_db_invariants next_id) as [Hbelow _].
  destruct (creates_run l _ Hbelow Hmin Hroom) as (_ & Ht & Hs & Hn).
  split; [|split].
  - intros k user Hk. rewrite (Hs k user Hk). f_equal.
    destruct (Service.nul_free user); [|done]. apply decide_ext.
    cbn [Service.empty_db Service.users]. rewrite email_taken_empty.
    split; [intros [?|?]; done|by right].
  - rewrite Hn. cbn [Service.empty_db Service.users]. by rewrite map_size_empty.
  - intros e. rewrite <- email_taken_spec, Ht.
    cbn [Service.empty_db Service.users]. rewrite email_taken_empty.
    split; [intros [?|?]; done|by right].
Qed.

Lemma first_create_of_an_email_wins_witness :
  let l := [nul_named_user; first_user; duplicate_user; second_user] in
  let run := Service.calls (Service.Create <$> l) (Service.empty_db 1) in
  (∀ k user, l !! k = Some user →
     run.1 !! k
     = Some (if Service.nul_free user then
               if decide (Service.uc_email user
                          ∈ Service.uc_email
                              <$> filter (λ u, Service.nul_free u) (take k l))
               then 400 else 201
             else 500))
  ∧ size (Service.users run.2)
    = length (filter (λ status : Z, status = 201) run.1)
  ∧ (∀ e, (∃ i r, Service.users run.2 !! i = Some r ∧ Service.email r = e)
          ↔ e ∈ Service.uc_email <$> filter (λ u, Service.nul_free u) l).
Proof.
  apply (first_create_of_an_email_wins
           [nul_named_user; first_user; duplicate_user; second_user] 1).
  - unfold Service.INTEGER_MIN. lia.
  - unfold Service.INTEGER_MAX. simpl. lia.
Defined.

Lemma NoDup_not_in_take {A} (xs : list A) k x :
  NoDup xs → xs !! k = Some x → x ∉ take k xs.
Proof.
  intros Hnd Hk Hin. apply list_elem_of_lookup in Hin as [j Hj].
  pose proof (lookup_lt_Some _ _ _ Hj) as Hlt. rewrite length_take in Hlt.
  rewrite lookup_take_lt in Hj by lia.
  pose proof (NoDup_lookup _ _ _ _ Hnd Hj Hk). lia.
Qed.

Lemma filter_take_sublist {A} (P : A → Prop) `{!∀ x, Decision (P x)}
    (xs : list A) k x :
  x ∈ filter P (take k xs) → x ∈ take k xs.
Proof. intros Hin. by apply list_elem_of_filter in Hin as [_ Hin]. Qed.

(** X7. Creates with pairwise different emails on an empty table, with room
    in the sequence for all of them: each one is answered 201, unless its
    body holds a NUL character, in which case it is answered 500;
    [list_users] then lists as many users as there were bodies without NUL
    character. When no body holds one, all are answered 201 and all are
    listed. *)
Theorem distinct_creates_all_succeed (l : list Service.UserCreate) (next_id : Z) :
  NoDup (Service.uc_email <$> l) →
  Service.INTEGER_MIN ≤ next_id →
  next_id + Z.of_nat (length l) ≤ Service.INTEGER_MAX + 1 →
  let run := Service.calls (Service.Create <$> l) (Service.empty_db next_id) in
  run.1 = (λ user, if Service.nul_free user then 201 else 500) <$> l
  ∧ size (Service.users run.2) = length (filter (λ u, Service.nul_free u) l)
  ∧ (∃ listed, Service.list_users run.2 = Service.Ok 200 listed
               ∧ length listed = length (filter (λ u, Service.nul_free u) l))
  ∧ (Forall (λ u, Service.nul_free u = true) l →
     run.1 = replicate (length l) 201
     ∧ size (Service.users run.2) = length l).
Proof.
  intros Hnd Hmin Hroom. cbn zeta. destruct (empty_db_invariants next_id) as [Hbelow _].
  destruct (creates_run l _ Hbelow Hmin Hroom) as (_ & _ & Hs & Hn).
  assert (Hlen : ∀ (cs : list Service.Call) db,
            length (Service.calls cs db).1 = length cs).
  { induction cs as [|c rest IH]; intros db; [done|]. cbn [Service.calls].
    destruct (Service.call c db) as [status db1]. specialize (IH db1).
    destruct (Service.calls rest db1). cbn in *. by rewrite IH. }
  assert (Hall : (Service.calls (Service.Create <$> l) (Service.empty_db next_id)).1
                 = (λ user, if Service.nul_free user then 201 else 500) <$> l).
  { apply list_eq. intros k. rewrite list_lookup_fmap.
    destruct (l !! k) as [user|] eqn:Hk; cbn [fmap option_fmap option_map].
    - rewrite (Hs k user Hk). f_equal. destruct (Service.nul_free user); [|done].
      rewrite decide_False; [done|].
      cbn [Service.empty_db Service.users]. rewrite email_taken_empty.
      intros [?|Hin]; [done|].
      apply list_elem_of_fmap in Hin as (u & Heq & Hin).
      apply filter_take_sublist in Hin.
      assert (Hin' : Service.uc_email user ∈ take k (Service.uc_email <$> l)).
      { rewrite <- fmap_take. apply list_elem_of_fmap. eauto. }
      revert Hin'. apply NoDup_not_in_take; [done|].
      by rewrite list_lookup_fmap, Hk.
    - apply lookup_ge_None in Hk. apply lookup_ge_None.
      by rewrite Hlen, length_fmap. }
  assert (Hcount : ∀ xs : list Service.UserCreate,
    length (filter (λ status : Z, status = 201)
              ((λ user, if Service.nul_free user then 201 else 500) <$> xs))
    = length (filter (λ u, Service.nul_free u) xs)).
  { induction xs as [|x xs IH]; [done|]. cbn [fmap list_fmap].
    rewrite !filter_cons. destruct (Service.nul_free x).
    - rewrite !decide_True by done. cbn [length]. by rewrite IH.
    - rewrite decide_False by done. by rewrite decide_False by (by intros ?). }
  assert (Hsize : size (Service.users
                          (Service.calls (Service.Create <$> l)
                             (Service.empty_db next_id)).2)
                  = length (filter (λ u, Service.nul_free u) l)).
  { rewrite Hn, Hall, Hcount. cbn [Service.empty_db Service.users].
    by rewrite map_size_empty. }
  split; [done|]. split; [done|]. split.
  - eexists. split; [done|].
    by rewrite length_fmap, length_map_to_list.
  - intros Hfree.
    assert (Hfilter : filter (λ u, Service.nul_free u) l = l).
    { clear -Hfree. induction Hfree as [|u us Hu _ IH]; [done|].
      rewrite filter_cons, decide_True by (by rewrite Hu). by rewrite IH. }
    split; [|by rewrite Hsize, Hfilter].
    rewrite Hall. clear -Hfree. induction Hfree as [|u us Hu _ IH]; [done|].
    cbn [fmap list_fmap length replicate]. by rewrite Hu, IH.
Qed.

Lemma distinct_creates_all_succeed_witness :
  let l := [first_user; second_user] in
  let run := Service.calls (Service.Create <$> l) (Service.empty_db 1) in
  run.1 = (λ user, if Service.nul_free user then 201 else 500) <$> l
  ∧ size (Service.users run.2) = length (filter (λ u, Service.nul_free u) l)
  ∧ (∃ listed, Service.list_users run.2 = Service.Ok 200 listed
               ∧ length listed = length (filter (λ u, Service.nul_free u) l))
  ∧ (Forall (λ u, Service.nul_free u = true) l →
     run.1 = replicate (length l) 201
     ∧ size (Service.users run.2) = length l).
Proof.
  apply (distinct_creates_all_succeed [first_user; second_user] 1).
  - simpl. apply NoDup_cons_2; [|apply NoDup_singleton].
    intros Hin. apply list_elem_of_singleton in Hin. discriminate.
  - unfold Service.INTEGER_MIN. lia.
  - unfold Service.INTEGER_MAX. simpl. lia.
Defined.

(** X8. [list_users] always answers 200; it lists each stored user once (no
    [id] twice), as many users as the table holds, and a user is listed
    exactly when [get_user] answers 200 with that user for its [id]. *)
Theorem list_users_agrees_with_get_user (db : Service.Db) :
  ∃ listed,
    Service.list_users db = Service.Ok 200 listed
    ∧ length listed = size (Service.users db)
    ∧ NoDup (Service.id <$> listed)
    ∧ ∀ u, u ∈ listed ↔ Service.get_user (Service.id u) db = Service.Ok 200 u.
Proof.
  eexists. split; [done|]. split; [by rewrite length_fmap, length_map_to_list|].
  split.
  - rewrite <- list_fmap_compose.
    assert (Hfst : (Service.id ∘ (λ kv : Z * Service.UserRow,
                     {| Service.id := kv.1; Service.row := kv.2 |})) = fst) by done.
    rewrite Hfst. apply NoDup_fst_map_to_list.
  - intros [i r]. rewrite list_elem_of_fmap. unfold Service.get_user.
    cbn [Service.id]. split.
    + intros ([i' r'] & [= -> ->] & Hin). apply elem_of_map_to_list in Hin.
      cbn in Hin. by rewrite Hin.
    + intros Hget. destruct (Service.users db !! i) as [r'|] eqn:Hi; [|done].
      injection Hget as ->. exists (i, r). split; [done|].
      by apply elem_of_map_to_list.
Qed.

(** ** Process control: settle delay and failures *)

(** X9. [_run_docker_command] runs the command it is given exactly once.
    Call the run good when the command exited with code zero and both
    captured streams are text. The call sleeps, once and for [wait_time]
    seconds, exactly when the run is good and [wait_time] is positive and
    not more than [time.sleep] takes; it returns [True] exactly when the run
    is good and [wait_time] is not positive or not more than [time.sleep]
    takes; [OverflowError] leaves it exactly when the run is good and
    [wait_time] is more than [time.sleep] takes; [UnicodeDecodeError] leaves
    it exactly when the command ran and a captured stream is not text. When
    the command exits with another code and the streams are text, the call
    returns [False] and logs one error record with the text of stderr (or
    "Unknown error" for an empty one). So a failed command is never followed
    by the settle delay, and [stop_container] never sleeps. *)
Theorem docker_sleeps_only_after_success
    (host : Docker.Host) (command : list string) (wait_time : Z)
    (container_name : string) :
  let out := Docker._run_docker_command host command wait_time in
  let good :=
    Docker.exited_zero (Docker.run host command)
    && Docker.captured_text host (Docker.run host command) in
  Docker.run_records out.2 = [command]
  ∧ Docker.sleep_records out.2
    = (if good && (0 <? wait_time) && (wait_time <=? Docker.sleep_max host)
       then [wait_time] else [])
  ∧ (out.1 = Docker.Returned true
     ↔ good = true ∧ (wait_time ≤ 0 ∨ wait_time ≤ Docker.sleep_max host))
  ∧ (out.1 = Docker.Raised Docker.OverflowError
     ↔ good = true ∧ 0 < wait_time ∧ Docker.sleep_max host < wait_time)
  ∧ (out.1 = Docker.Raised Docker.UnicodeDecodeError
     ↔ Docker.run host command ≠ Docker.NotStarted
       ∧ Docker.captured_text host (Docker.run host command) = false)
  ∧ (∀ returncode stdout stderr err,
       Docker.run host command = Docker.Exited returncode stdout stderr →
       returncode ≠ 0 →
       is_Some (Docker.text host stdout) →
       Docker.text host stderr = Some err →
       out.1 = Docker.Returned false
       ∧ Docker.error_records out.2 = [Docker.str_or err "Unknown error"]
       ∧ (err ≠ "" → Docker.error_records out.2 = [err]))
  ∧ Docker.sleep_records (Docker.stop_container host container_name).2 = []
  ∧ Docker.run_records (Docker.stop_container host container_name).2
    = [["docker"; "stop"; container_name]].
Proof.
  cbn zeta.
  assert (Hgen : ∀ cmd w,
    Docker.run_records (Docker._run_docker_command host cmd w).2 = [cmd]
    ∧ Docker.sleep_records (Docker._run_docker_command host cmd w).2
      = (if Docker.exited_zero (Docker.run host cmd)
            && Docker.captured_text host (Docker.run host cmd)
            && (0 <? w) && (w <=? Docker.sleep_max host)
         then [w] else [])
    ∧ ((Docker._run_docker_command host cmd w).1 = Docker.Returned true
       ↔ Docker.exited_zero (Docker.run host cmd)
         && Docker.captured_text host (Docker.run host cmd) = true
         ∧ (w ≤ 0 ∨ w ≤ Docker.sleep_max host))
    ∧ ((Docker._run_docker_command host cmd w).1 = Docker.Raised Docker.OverflowError
       ↔ Docker.exited_zero (Docker.run host cmd)
         && Docker.captured_text host (Docker.run host cmd) = true
         ∧ 0 < w ∧ Docker.sleep_max host < w)
    ∧ ((Docker._run_docker_command host cmd w).1
       = Docker.Raised Docker.UnicodeDecodeError
       ↔ Docker.run host cmd ≠ Docker.NotStarted
         ∧ Docker.captured_text host (Docker.run host cmd) = false)).
  { intros cmd w.
    destruct (Docker.run host cmd) as [returncode stdout stderr|] eqn:Hrun.
    - destruct (Docker.captured_text host (Docker.Exited returncode stdout stderr))
        eqn:Htext.
      + apply captured_text_exited in Htext as (out & err & Hout & Herr).
        rewrite (run_docker_command_exited host cmd w _ _ _ _ _ Hrun Hout Herr).
        cbn zeta. cbn [Docker.exited_zero]. rewrite andb_true_r.
        destruct (Z.eqb_spec returncode 0) as [->|Hne]; cbn [andb].
        * destruct (Z.ltb_spec 0 w); cbn [andb];
            [destruct (Z.leb_spec w (Docker.sleep_max host))|];
            cbn [fst snd]; repeat split; try done; try lia;
            try (intros H'; destruct H' as (? & ?); first [done | lia]);
            try (intros [? [?|?]]; lia).
        * cbn [fst snd]. repeat split; try done;
            intros H'; destruct H' as (? & ?); done.
      + apply captured_text_not in Htext.
        rewrite (run_docker_command_garbled host cmd w _ _ _ Hrun Htext).
        rewrite andb_false_r. cbn [andb fst snd].
        repeat split; try done; intros H'; destruct H' as (? & ?); done.
    - rewrite (run_docker_command_not_started host cmd w Hrun).
      cbn [Docker.exited_zero andb fst snd].
      repeat split; try done; intros H'; destruct H' as (? & ?); done. }
  destruct (Hgen command wait_time) as (Hruns & Hsleeps & Htrue & Hover & Hdec).
  destruct (Hgen ["docker"; "stop"; container_name] 0) as (Hruns0 & Hsleeps0 & _).
  split; [done|]. split; [done|]. split; [done|]. split; [done|]. split; [done|].
  split; [|split; [|done]].
  - intros returncode stdout stderr err Hrun Hne [out Hout] Herr.
    rewrite (run_docker_command_exited host command wait_time _ _ _ _ _ Hrun Hout Herr).
    cbn zeta. destruct (Z.eqb_spec returncode 0) as [?|_]; [done|].
    cbn [fst snd]. split; [done|]. split; [done|]. intros Herr'.
    unfold Docker.str_or. by rewrite decide_False.
  - unfold Docker.stop_container. rewrite Hsleeps0.
    cbn [Z.ltb Z.compare]. by rewrite andb_false_r.
Qed.

Lemma docker_sleeps_only_after_success_witness :
  (Docker._run_docker_command no_such_container
     ["docker"; "stop"; "recovery_fastapi"] 0).1 = Docker.Returned false
  ∧ Docker.error_records
      (Docker._run_docker_command no_such_container
         ["docker"; "stop"; "recovery_fastapi"] 0).2
    = [Docker.str_or "no such container" "Unknown error"]
  ∧ ("no such container" ≠ "" →
     Docker.error_records
       (Docker._run_docker_command no_such_container
          ["docker"; "stop"; "recovery_fastapi"] 0).2
     = ["no such container"]).
Proof.
  destruct (docker_sleeps_only_after_success no_such_container
              ["docker"; "stop"; "recovery_fastapi"] 0 "recovery_fastapi")
    as (_ & _ & _ & _ & _ & Hfail & _).
  apply (Hfail 1 [] (String.list_byte_of_string "no such container") "no such container").
  - reflexivity.
  - lia.
  - by eexists.
  - reflexivity.
Defined.

(** X10. Every [False] of [_run_docker_command] is explained in the log, and
    nothing else is: the call returns [False] exactly when it has logged an
    error record. When the command cannot be started at all the call does
    not return: [OSError] leaves the function, with no error record and no
    sleep. *)
Theorem docker_false_iff_error_logged
    (host : Docker.Host) (command : list string) (wait_time : Z) :
  let out := Docker._run_docker_command host command wait_time in
  (out.1 = Docker.Returned false ↔ Docker.error_records out.2 ≠ [])
  ∧ (out.1 = Docker.Raised Docker.OSError
     ↔ Docker.run host command = Docker.NotStarted)
  ∧ (Docker.run host command = Docker.NotStarted →
     Docker.error_records out.2 = [] ∧ Docker.sleep_records out.2 = []).
Proof.
  cbn zeta. unfold Docker._run_docker_command.
  destruct (Docker.run host command) as [returncode stdout stderr|] eqn:Hrun.
  - destruct (Docker.text host stdout), (Docker.text host stderr);
      try (cbn [fst snd]; repeat split; done).
    destruct (Z.eqb_spec returncode 0) as [->|Hne]; cbn [fst snd].
    + destruct (0 <? wait_time); [destruct (wait_time <=? Docker.sleep_max host)|];
        repeat split; try done.
    + repeat split; try done.
  - cbn [fst snd]. repeat split; try done.
Qed.

(** ** The health wait: the whole outcome *)

Section HealthOutcome.
Import Health.

Variable probe : nat → ProbeOutcome.

(** Among the first [n] probes either none answers 200 or there is a first
    one that does. *)
Lemma first_success_or_none n :
  (∀ j, (j < n)%nat → probe j ≠ Response 200)
  ∨ ∃ k, (k < n)%nat ∧ probe k = Response 200
         ∧ ∀ j, (j < k)%nat → probe j ≠ Response 200.
Proof.
  induction n as [|n [Hnone | (k & Hk & Hok & Hbefore)]].
  - left. intros j Hj. lia.
  - destruct (decide (probe n = Response 200)) as [Hn|Hn].
    + right. exists n. split; [lia|]. split; [done|].
      intros j Hj. apply Hnone. lia.
    + left. intros j Hj. destruct (decide (j = n)) as [->|Hne]; [done|].
      apply Hnone. lia.
  - right. exists k. split; [lia|]. by split.
Qed.

(** Once a probe within both ranges answers 200, the end of the range does
    not matter. *)
Lemma wait_loop_range_irrelevant delay_seconds k : ∀ lo hi hi' issued,
  lo + Z.of_nat k < hi → lo + Z.of_nat k < hi' →
  probe (issued + k)%nat = Response 200 →
  wait_loop probe delay_seconds (py_range lo hi) issued
  = wait_loop probe delay_seconds (py_range lo hi') issued.
Proof.
  induction k as [|k IH]; intros lo hi hi' issued Hhi Hhi' Hok.
  - rewrite (py_range_cons lo hi), (py_range_cons lo hi') by lia. cbn [wait_loop].
    replace (issued + 0)%nat with issued in Hok by lia. rewrite Hok.
    reflexivity.
  - rewrite (py_range_cons lo hi), (py_range_cons lo hi') by lia. cbn [wait_loop].
    rewrite (IH (lo + 1) hi hi' (S issued)); [done|lia|lia|].
    by replace (S issued + k)%nat with (issued + S k)%nat by lia.
Qed.

Lemma sleep_delays_wait_loop delay_seconds attempts : ∀ issued,
  sleep_delays (wait_loop probe delay_seconds attempts issued).2
  = replicate (sleeps (wait_loop probe delay_seconds attempts issued).2)
      delay_seconds.
Proof.
  unfold sleep_delays.
  induction attempts as [|attempt rest IH]; intros issued; [done|].
  cbn [wait_loop]. specialize (IH (S issued)).
  destruct (probe issued) as [status_code|].
  - destruct (status_code =? 200); [done|].
    cbn [fst snd]. rewrite !sleeps_cons. cbn. by rewrite IH.
  - cbn [fst snd]. rewrite !sleeps_cons. cbn. by rewrite IH.
Qed.

Lemma wait_loop_budget delay_seconds attempts : ∀ issued,
  let run := wait_loop probe delay_seconds attempts issued in
  (probes run.2 ≤ length attempts)%nat
  ∧ probes run.2 = (sleeps run.2 + (if run.1 then 1 else 0))%nat
  ∧ reported_exhausted run.2 = [].
Proof.
  induction attempts as [|attempt rest IH]; intros issued.
  - cbn. repeat split; lia.
  - cbn [wait_loop]. destruct (IH (S issued)) as (Hle & Heq & Hrep).
    destruct (probe issued) as [status_code|].
    + destruct (status_code =? 200).
      * cbn zeta. cbn [fst snd]. rewrite !probes_cons, !sleeps_cons. cbn.
        repeat split; lia.
      * cbn zeta. cbn [fst snd]. rewrite !probes_cons, !sleeps_cons. cbn.
        repeat split; [lia|lia|done].
    + cbn zeta. cbn [fst snd]. rewrite !probes_cons, !sleeps_cons. cbn.
      repeat split; [lia|lia|done].
Qed.

End HealthOutcome.

(** X11. [_wait] returns [True] exactly when one of the probes within the
    budget answers 200: it never reports a recovery that no probe has seen,
    and never misses one that a probe within the budget would see. *)
Theorem wait_true_iff_some_probe_succeeds
    (probe : nat → Health.ProbeOutcome) (max_attempts : Z) (delay_seconds : Q) :
  (Health._wait probe max_attempts delay_seconds).1 = true
  ↔ ∃ k, Z.of_nat k < max_attempts ∧ probe k = Health.Response 200.
Proof.
  destruct (first_success_or_none probe (Z.to_nat max_attempts))
    as [Hnone | (k & Hk & Hok & Hbefore)].
  - destruct (wait_loop_all_fail probe delay_seconds (Z.to_nat max_attempts)
                1 (max_attempts + 1) 0) as (Hr & _); [lia|done|].
    unfold Health._wait. rewrite Hr. cbn [fst]. split; [done|].
    intros (k & Hk & Hok). exfalso. apply (Hnone k); [lia|done].
  - destruct (wait_loop_first_success probe delay_seconds k 1 (max_attempts + 1) 0)
      as (before & Hrun & _); [lia|done|done|].
    unfold Health._wait. rewrite Hrun. cbn [fst]. split; [|done].
    intros _. exists k. split; [lia|done].
Qed.

(** X12. Whatever the probes answer, [_wait] sends at most
    [max(0, max_attempts)] requests; it sleeps after every probe but a
    successful one, always for [delay_seconds]; and it logs the closing
    "did not recover" record exactly when it returns [False]. *)
Theorem wait_stays_within_budget
    (probe : nat → Health.ProbeOutcome) (max_attempts : Z) (delay_seconds : Q) :
  let run := Health._wait probe max_attempts delay_seconds in
  (Health.probes run.2 ≤ Z.to_nat max_attempts)%nat
  ∧ Health.probes run.2
    = (Health.sleeps run.2 + (if run.1 then 1 else 0))%nat
  ∧ Health.sleep_delays run.2 = replicate (Health.sleeps run.2) delay_seconds
  ∧ Health.reported_exhausted run.2 = (if run.1 then [] else [max_attempts]).
Proof.
  cbn zeta.
  assert (Hdelays :
    Health.sleep_delays (Health._wait probe max_attempts delay_seconds).2
    = replicate (Health.sleeps (Health._wait probe max_attempts delay_seconds).2)
        delay_seconds).
  { unfold Health._wait.
    pose proof (sleep_delays_wait_loop probe delay_seconds
                  (py_range 1 (max_attempts + 1)) 0) as Hloop.
    destruct (Health.wait_loop _ _ _ _) as [healthy t]. cbn [fst snd] in *.
    destruct healthy; cbn [fst snd]; [done|].
    unfold Health.sleep_delays in *.
    rewrite omap_app, sleeps_app, !sleeps_cons, Hloop. cbn.
    by rewrite Nat.add_0_r, app_nil_r. }
  rewrite Hdelays. unfold Health._wait.
  destruct (wait_loop_budget probe delay_seconds (py_range 1 (max_attempts + 1)) 0)
    as (Hle & Heq & Hrep).
  rewrite length_py_range in Hle.
  destruct (Health.wait_loop _ _ _ _) as [healthy t]. cbn [fst snd] in *.
  destruct healthy; cbn [fst snd].
  - repeat split; [lia|lia|done].
  - rewrite probes_app, sleeps_app, reported_exhausted_app, !probes_cons,
      !sleeps_cons, Hrep.
    cbn. repeat split; lia.
Qed.

(** X13. A larger budget changes nothing once [_wait] has returned [True]:
    with any [max_attempts'] at least as large the call returns [True] with
    the same probes, records and sleeps. *)
Theorem wait_budget_is_monotone
    (probe : nat → Health.ProbeOutcome) (max_attempts max_attempts' : Z)
    (delay_seconds : Q) :
  (Health._wait probe max_attempts delay_seconds).1 = true →
  max_attempts ≤ max_attempts' →
  Health._wait probe max_attempts' delay_seconds
  = Health._wait probe max_attempts delay_seconds.
Proof.
  intros Htrue Hle.
  destruct (first_success_or_none probe (Z.to_nat max_attempts))
    as [Hnone | (k & Hk & Hok & Hbefore)].
  - destruct (wait_loop_all_fail probe delay_seconds (Z.to_nat max_attempts)
                1 (max_attempts + 1) 0) as (Hr & _); [lia|done|].
    unfold Health._wait in Htrue. rewrite Hr in Htrue. done.
  - unfold Health._wait.
    rewrite (wait_loop_range_irrelevant probe delay_seconds k 1
               (max_attempts' + 1) (max_attempts + 1) 0) by (done || lia).
    destruct (wait_loop_first_success probe delay_seconds k 1 (max_attempts + 1) 0)
      as (before & Hrun & _); [lia|done|done|].
    by rewrite Hrun.
Qed.

Lemma wait_budget_is_monotone_witness :
  Health._wait recovering_probe 30 1 = Health._wait recovering_probe 5 1.
Proof.
  apply (wait_budget_is_monotone recovering_probe 5 30 1).
  - reflexivity.
  - lia.
Defined.

(** ** Cleanup: what it sends, logs and leaves *)

Section CleanupBounds.
Import Cleanup.

Variable int_of_text : string → option Z.

(** Serving a request never adds a user, never changes one, and leaves the
    sequence alone. *)
Lemma serve_shrinks req d :
  (∀ i r, Service.users (serve int_of_text req d).2 !! i = Some r →
          Service.users d !! i = Some r)
  ∧ Service.users_id_seq (serve int_of_text req d).2 = Service.users_id_seq d.
Proof.
  destruct req as [|v]; [done|]. unfold serve.
  destruct (path_int int_of_text v) as [i|]; [|done].
  destruct (delete_user_cases i d) as [(_ & ->) | (_ & ->)];
    cbn [snd Service.users Service.users_id_seq]; [done|].
  split; [|done]. intros k r Hk. by apply lookup_delete_Some in Hk as [_ Hk].
Qed.

Lemma send_shrinks req w :
  (∀ i r, Service.users (db (send int_of_text req w).2) !! i = Some r →
          Service.users (db w) !! i = Some r)
  ∧ Service.users_id_seq (db (send int_of_text req w).2)
    = Service.users_id_seq (db w).
Proof.
  destruct (send_frame int_of_text req w) as (_ & _ & _ & _ & [-> | ->]); [done|].
  apply serve_shrinks.
Qed.

Lemma delete_each_shrinks users : ∀ w,
  (∀ i r, Service.users (db (delete_each int_of_text users w).2) !! i = Some r →
          Service.users (db w) !! i = Some r)
  ∧ Service.users_id_seq (db (delete_each int_of_text users w).2)
    = Service.users_id_seq (db w).
Proof.
  induction users as [|user rest IH]; intros w; [done|].
  cbn [delete_each].
  destruct (truthy (dict_get "id" user)); cbn [negb]; [|apply IH].
  destruct (send_frame int_of_text (DeleteUser (dict_get "id" user)) w)
    as (_ & _ & _ & Hexc & _).
  destruct (send_shrinks (DeleteUser (dict_get "id" user)) w) as [Hsub Hseq].
  destruct (send int_of_text (DeleteUser (dict_get "id" user)) w)
    as [[exc|reply] w1]; cbn [fst snd] in *.
  - rewrite (Hexc exc eq_refl). cbn [is_RequestError].
    destruct (IH (logging (LogDeleteFailed (dict_get "id" user) RequestError) w1))
      as [Hsub' Hseq'].
    split; [|by rewrite Hseq']. intros i r Hi. by apply Hsub, Hsub'.
  - destruct (IH w1) as [Hsub' Hseq'].
    split; [|by rewrite Hseq']. intros i r Hi. by apply Hsub, Hsub'.
Qed.

(** No warning without a failed request. *)
Lemma delete_each_quiet users : ∀ w,
  reliable w →
  log (delete_each int_of_text users w).2 = log w
  ∧ reliable (delete_each int_of_text users w).2.
Proof.
  induction users as [|user rest IH]; intros w Hrel; [done|].
  cbn [delete_each].
  destruct (truthy (dict_get "id" user)); cbn [negb]; [|by apply IH].
  destruct (send_reliable int_of_text (DeleteUser (dict_get "id" user)) w Hrel)
    as (Hret & _ & Hrel1).
  destruct (send_frame int_of_text (DeleteUser (dict_get "id" user)) w)
    as (_ & _ & Hlog & _).
  destruct (send int_of_text (DeleteUser (dict_get "id" user)) w)
    as [[exc|reply] w1]; cbn [fst snd] in *; [done|].
  destruct (IH w1 Hrel1) as [Hlog' Hrel']. split; [|done]. by rewrite Hlog'.
Qed.

(** What the list request brings back. *)
Lemma send_get_users w :
  sent (send int_of_text GetUsers w).2 = sent w ++ [GetUsers]
  ∧ db (send int_of_text GetUsers w).2 = db w
  ∧ log (send int_of_text GetUsers w).2 = log w
  ∧ ∀ response, (send int_of_text GetUsers w).1 = inr response →
      raise_for_status response = None →
      json response
      = user_json
          <$> ((λ kv : Z * Service.UserRow,
                  {| Service.id := kv.1; Service.row := kv.2 |})
                 <$> map_to_list (Service.users (db w))).
Proof.
  destruct (send_frame int_of_text GetUsers w) as (Hsent & _ & Hlog & _).
  split; [done|]. split; [|split; [done|]].
  - unfold send. destruct (faults w) as [|[] fs]; by rewrite ?serve_get_users.
  - unfold send. destruct (faults w) as [|[] fs]; rewrite ?serve_get_users;
      cbn [fst]; intros response [= <-]; done.
Qed.

Lemma ids_of_listed (t : gmap Z Service.UserRow) :
  dict_get "id"
    <$> (user_json
           <$> ((λ kv : Z * Service.UserRow,
                   {| Service.id := kv.1; Service.row := kv.2 |}) <$> map_to_list t))
  = JInt <$> (map_to_list t).*1.
Proof.
  rewrite <- !list_fmap_compose. apply list_fmap_ext. intros _ [i r] _. cbn.
  apply get_id_user_json.
Qed.

Lemma filter_truthy_ints (ids : list Z) :
  filter (λ v, truthy v) (JInt <$> ids) = JInt <$> filter (λ i, i ≠ 0) ids.
Proof.
  induction ids as [|i ids IH]; [done|].
  cbn [fmap list_fmap]. rewrite !filter_cons, IH. cbn [truthy].
  destruct (Z.eqb_spec i 0) as [->|Hne]; cbn [negb].
  - rewrite decide_False by (by intros ?). by rewrite decide_False by (by intros ?).
  - rewrite decide_True by done. by rewrite decide_True.
Qed.

End CleanupBounds.

(** X14. Whatever happens to its requests, [_delete_all_users] only ever
    removes users: every user stored afterwards was stored before, with the
    same fields, and the [id] sequence is where it was. *)
Theorem cleanup_only_removes_users
    (int_of_text : string → option Z) (w : Cleanup.World) :
  let w' := (Cleanup._delete_all_users int_of_text w).2 in
  (∀ i r, Service.users (Cleanup.db w') !! i = Some r →
          Service.users (Cleanup.db w) !! i = Some r)
  ∧ Service.users_id_seq (Cleanup.db w') = Service.users_id_seq (Cleanup.db w)
  ∧ (Cleanup.entity_count w' ≤ Cleanup.entity_count w)%nat.
Proof.
  cbn zeta.
  assert (Hshrink :
    (∀ i r, Service.users (Cleanup.db (Cleanup._delete_all_users int_of_text w).2)
              !! i = Some r →
            Service.users (Cleanup.db w) !! i = Some r)
    ∧ Service.users_id_seq (Cleanup.db (Cleanup._delete_all_users int_of_text w).2)
      = Service.users_id_seq (Cleanup.db w)).
  { unfold Cleanup._delete_all_users.
    destruct (send_get_users int_of_text w) as (_ & Hdb & _).
    destruct (Cleanup.send int_of_text Cleanup.GetUsers w) as [[exc|response] w1];
      cbn [fst snd] in *.
    - cbn [Cleanup.is_HTTPError Cleanup.logging Cleanup.db snd]. by rewrite Hdb.
    - destruct (Cleanup.raise_for_status response).
      + cbn [Cleanup.is_HTTPError Cleanup.logging Cleanup.db snd]. by rewrite Hdb.
      + destruct (delete_each_shrinks int_of_text (Cleanup.json response) w1)
          as [Hsub Hseq].
        rewrite Hdb in Hsub, Hseq. by split. }
  destruct Hshrink as [Hsub Hseq]. split; [done|]. split; [done|].
  unfold Cleanup.entity_count. apply map_subseteq_size.
  apply map_subseteq_spec. exact Hsub.
Qed.

(** X15. [_delete_all_users] sends one [GET /users/] and then only
    [DELETE]s for ids that are stored and not 0, each at most once: never
    more requests than one plus the number of stored users, whatever happens
    to them. *)
Theorem cleanup_request_budget
    (int_of_text : string → option Z) (w : Cleanup.World) :
  let w' := (Cleanup._delete_all_users int_of_text w).2 in
  ∃ ids,
    Cleanup.sent w'
    = Cleanup.sent w
        ++ Cleanup.GetUsers :: ((λ i, Cleanup.DeleteUser (Cleanup.JInt i)) <$> ids)
    ∧ NoDup ids
    ∧ (∀ i, i ∈ ids → i ≠ 0 ∧ is_Some (Service.users (Cleanup.db w) !! i))
    ∧ (length ids ≤ Cleanup.entity_count w)%nat.
Proof.
  cbn zeta. unfold Cleanup._delete_all_users.
  destruct (send_get_users int_of_text w) as (Hsent & _ & _ & Hjson).
  assert (Hnone : ∀ w1 : Cleanup.World,
    Cleanup.sent w1 = Cleanup.sent w ++ [Cleanup.GetUsers] →
    ∃ ids : list Z,
      Cleanup.sent w1
      = Cleanup.sent w
          ++ Cleanup.GetUsers :: ((λ i, Cleanup.DeleteUser (Cleanup.JInt i)) <$> ids)
      ∧ NoDup ids
      ∧ (∀ i, i ∈ ids → i ≠ 0 ∧ is_Some (Service.users (Cleanup.db w) !! i))
      ∧ (length ids ≤ Cleanup.entity_count w)%nat).
  { intros w1 Hw1. exists []. rewrite Hw1. split; [done|].
    split; [apply NoDup_nil_2|]. split; [|cbn; lia].
    intros i Hi. by apply elem_of_nil in Hi. }
  destruct (Cleanup.send int_of_text Cleanup.GetUsers w) as [[exc|response] w1];
    cbn [fst snd] in *.
  - cbn [Cleanup.is_HTTPError Cleanup.logging Cleanup.sent snd]. by apply Hnone.
  - destruct (Cleanup.raise_for_status response) eqn:Hstatus.
    + cbn [Cleanup.is_HTTPError Cleanup.logging Cleanup.sent snd]. by apply Hnone.
    + destruct (delete_each_requests int_of_text (Cleanup.json response) w1)
        as [_ Hreq].
      pose proof (Hjson response eq_refl Hstatus) as Hlisted.
      rewrite Hlisted in Hreq |- *.
      rewrite ids_of_listed, filter_truthy_ints in Hreq.
      exists (filter (λ i, i ≠ 0) (map_to_list (Service.users (Cleanup.db w))).*1).
      split; [|split; [|split]].
      * rewrite Hreq, Hsent, <- app_assoc. cbn [app]. do 2 f_equal.
        by rewrite <- list_fmap_compose.
      * apply NoDup_filter, NoDup_fst_map_to_list.
      * intros i Hi. apply list_elem_of_filter in Hi as [Hnz Hin]. split; [done|].
        apply list_elem_of_fmap in Hin as ([i' r] & -> & Hin).
        apply elem_of_map_to_list in Hin. eauto.
      * unfold Cleanup.entity_count. rewrite <- length_map_to_list.
        etrans; [apply length_filter|]. by rewrite length_fmap.
Qed.

(** X16. When every request is delivered and answered, [_delete_all_users]
    logs nothing: a warning in the log always stands for a request that
    failed. *)
Theorem cleanup_quiet_when_reliable
    (int_of_text : string → option Z) (w : Cleanup.World) :
  Cleanup.reliable w →
  Cleanup.log (Cleanup._delete_all_users int_of_text w).2 = Cleanup.log w.
Proof.
  intros Hrel. unfold Cleanup._delete_all_users.
  destruct (send_reliable int_of_text Cleanup.GetUsers w Hrel) as (Hret & _ & Hrel1).
  destruct (send_get_users int_of_text w) as (_ & _ & Hlog & _).
  rewrite serve_get_users in Hret. cbn [fst] in Hret.
  destruct (Cleanup.send int_of_text Cleanup.GetUsers w) as [[exc|response] w1];
    cbn [fst snd] in *; [done|].
  injection Hret as ->. rewrite raise_for_status_200. cbn [Cleanup.json].
  destruct (delete_each_quiet int_of_text
              (Cleanup.user_json
                 <$> ((λ kv : Z * Service.UserRow,
                         {| Service.id := kv.1; Service.row := kv.2 |})
                        <$> map_to_list (Service.users (Cleanup.db w)))) w1 Hrel1)
    as [Hquiet _].
  by rewrite Hquiet.
Qed.

Lemma cleanup_quiet_when_reliable_witness :
  Cleanup.log (Cleanup._delete_all_users literals_only reachable_world).2
  = Cleanup.log reachable_world.
Proof.
  apply (cleanup_quiet_when_reliable literals_only reachable_world).
  unfold Cleanup.reliable. simpl. apply Forall_nil_2.
Defined.

Lemma calls_keep_zero_free (cs : list Service.Call) : ∀ db,
  0 < Service.users_id_seq db → Service.users db !! 0 = None →
  0 < Service.users_id_seq (Service.calls cs db).2
  ∧ Service.users (Service.calls cs db).2 !! 0 = None.
Proof.
  induction cs as [|c rest IH]; intros db Hseq Hzero; [done|].
  cbn [Service.calls].
  assert (Hstep : 0 < Service.users_id_seq (Service.call c db).2
                  ∧ Service.users (Service.call c db).2 !! 0 = None).
  { destruct c as [user|user_id]; cbn [Service.call snd].
    - destruct (create_user_cases user db)
        as [(_ & _ & _ & _ & ->) | [(_ & _ & _ & ->) | (_ & exc & -> & _)]];
        cbn [snd Service.users Service.users_id_seq].
      + split; [lia|]. rewrite lookup_insert_ne; [done|lia].
      + split; [lia|done].
      + done.
    - destruct (delete_user_cases user_id db) as [(_ & ->) | (_ & ->)];
        cbn [snd Service.users Service.users_id_seq]; [done|].
      split; [done|]. apply lookup_delete_None. by right. }
  destruct (Service.call c db) as [status db1]. cbn [snd] in Hstep.
  destruct Hstep as [Hseq1 Hzero1]. specialize (IH db1 Hseq1 Hzero1).
  by destruct (Service.calls rest db1) as [statuses db2].
Qed.

(** X17. The [clean_database] fixture around a test: when the service
    answers, no stored user has [id] 0 and the sequence is positive, then
    whatever users the test creates and deletes, the fixture returns
    normally and leaves the table empty. *)
Theorem clean_database_leaves_nothing_behind
    (int_of_text : string → option Z) (cs : list Service.Call) (w : Cleanup.World) :
  Cleanup.reliable w →
  Service.users (Cleanup.db w) !! 0 = None →
  0 < Service.users_id_seq (Cleanup.db w) →
  (Cleanup.clean_database int_of_text cs w).1 = Cleanup.Returned
  ∧ Cleanup.entity_count (Cleanup.clean_database int_of_text cs w).2 = 0%nat.
Proof.
  intros Hrel Hzero Hseq.
  unfold Cleanup.clean_database, Cleanup.clean_database_before,
    Cleanup.clean_database_after.
  destruct (delete_all_users_reliable int_of_text
              (Cleanup.logging (Cleanup.LogInfo "Cleaning database (pre-test)") w))
    as (Hret & Hrel1 & Husers & Hseq1); [done|].
  cbn [Cleanup.logging Cleanup.db] in Husers, Hseq1.
  destruct (Cleanup._delete_all_users int_of_text _) as [result w1].
  cbn [fst snd] in *. subst result.
  destruct (calls_keep_zero_free cs (Cleanup.db w1)) as [_ Hzero2].
  { by rewrite Hseq1. }
  { rewrite Husers, survivors_lookup. by rewrite decide_True. }
  destruct (delete_all_users_reliable int_of_text
              (Cleanup.logging (Cleanup.LogInfo "Cleaning database (post-test)")
                 (Cleanup.during_test cs w1)))
    as (Hret' & _ & Husers' & _); [done|].
  split; [done|]. unfold Cleanup.entity_count. rewrite Husers'.
  cbn [Cleanup.logging Cleanup.during_test Cleanup.db].
  by rewrite survivors_none, map_size_empty.
Qed.

Lemma clean_database_leaves_nothing_behind_witness :
  (Cleanup.clean_database literals_only
     [Service.Create first_user; Service.Create duplicate_user;
      Service.Create second_user] reachable_world).1 = Cleanup.Returned
  ∧ Cleanup.entity_count
      (Cleanup.clean_database literals_only
         [Service.Create first_user; Service.Create duplicate_user;
          Service.Create second_user] reachable_world).2 = 0%nat.
Proof.
  apply (clean_database_leaves_nothing_behind literals_only
           [Service.Create first_user; Service.Create duplicate_user;
            Service.Create second_user] reachable_world).
  - unfold Cleanup.reliable. simpl. apply Forall_nil_2.
  - reflexivity.
  - reflexivity.
Defined.

(** ** Metrics: order of recording, the endpoint, stale snapshots *)

Section MetricsRuns.
Import Metrics.

Lemma counters_overwrite (d : gmap string Z) t1 f1 t2 f2 :
  <["app_requests_failed" := f2]>
    (<["app_requests_total" := t2]>
       (<["app_requests_failed" := f1]> (<["app_requests_total" := t1]> d)))
  = <["app_requests_failed" := f2]> (<["app_requests_total" := t2]> d).
Proof.
  apply map_eq. intros k.
  destruct (decide (k = "app_requests_failed")) as [->|Hf].
  - by rewrite !lookup_insert_eq.
  - rewrite !(lookup_insert_ne _ "app_requests_failed") by done.
    destruct (decide (k = "app_requests_total")) as [->|Ht].
    + by rewrite !lookup_insert_eq.
    + by rewrite !lookup_insert_ne by done.
Qed.

(** One call, on a dictionary that has both counters. *)
Lemma record_request_store success (h : gmap nat (gmap string Z)) d total failed :
  h !! _metrics = Some d →
  d !! "app_requests_total" = Some total →
  d !! "app_requests_failed" = Some failed →
  record_request success h
  = (Returned (),
     <[_metrics :=
         <["app_requests_failed" := failed + (if success then 0 else 1)]>
           (<["app_requests_total" := total + 1]> d)]> h).
Proof.
  intros Hd Ht Hf. unfold record_request. rewrite Hd, Ht.
  destruct success.
  - do 2 f_equal. symmetry. apply insert_id.
    rewrite lookup_insert_ne by done. rewrite Hf. f_equal. lia.
  - rewrite lookup_insert_ne by done. by rewrite Hf.
Qed.

Lemma record_requests_store outcomes : ∀ (h : gmap nat (gmap string Z)) d total failed,
  h !! _metrics = Some d →
  d !! "app_requests_total" = Some total →
  d !! "app_requests_failed" = Some failed →
  record_requests outcomes h
  = (Returned (),
     <[_metrics :=
         <["app_requests_failed" :=
             failed + Z.of_nat (length (filter (λ ok, ok = false) outcomes))]>
           (<["app_requests_total" := total + Z.of_nat (length outcomes)]> d)]> h).
Proof.
  induction outcomes as [|success rest IH]; intros h d total failed Hd Ht Hf.
  - cbn. rewrite !Z.add_0_r. f_equal. symmetry.
    rewrite (insert_id d "app_requests_total") by done.
    rewrite (insert_id d) by done. by apply insert_id.
  - cbn [record_requests].
    rewrite (record_request_store success h d total failed) by done.
    erewrite IH.
    + f_equal. rewrite insert_insert_eq. f_equal. rewrite counters_overwrite.
      rewrite filter_cons.
      assert (Hn : total + 1 + Z.of_nat (length rest)
                   = total + Z.of_nat (length (success :: rest)))
        by (cbn [length]; lia).
      assert (Hk : failed + (if success then 0 else 1)
                     + Z.of_nat (length (filter (λ ok, ok = false) rest))
                   = failed
                     + Z.of_nat
                         (length (if decide (success = false)
                                  then success :: filter (λ ok, ok = false) rest
                                  else filter (λ ok, ok = false) rest))).
      { destruct success;
          [rewrite decide_False by done|rewrite decide_True by done];
          cbn [length]; lia. }
      by rewrite Hn, Hk.
    + by rewrite lookup_insert_eq.
    + rewrite lookup_insert_ne by done. by rewrite lookup_insert_eq.
    + by rewrite lookup_insert_eq.
Qed.

Lemma record_request_elsewhere success (h : gmap nat (gmap string Z)) a :
  a ≠ _metrics → (record_request success h).2 !! a = h !! a.
Proof.
  intros Hne. unfold record_request.
  destruct (h !! _metrics) as [d|]; [|done].
  destruct (d !! "app_requests_total") as [total|]; [|done].
  destruct success; cbn [snd].
  - by rewrite lookup_insert_ne.
  - destruct (_ !! "app_requests_failed"); cbn [snd]; by rewrite lookup_insert_ne.
Qed.

Lemma record_requests_elsewhere outcomes : ∀ (h : gmap nat (gmap string Z)) a,
  a ≠ _metrics → (record_requests outcomes h).2 !! a = h !! a.
Proof.
  induction outcomes as [|success rest IH]; intros h a Hne; [done|].
  cbn [record_requests].
  pose proof (record_request_elsewhere success h a Hne) as Hstep.
  destruct (record_request success h) as [[[]|e] h1]; cbn [snd] in *.
  - by rewrite IH.
  - done.
Qed.

Lemma get_metrics_store (h : gmap nat (gmap string Z)) d :
  h !! _metrics = Some d →
  get_metrics h = (Returned (fresh (dom h)), <[fresh (dom h) := d]> h).
Proof. intros Hd. unfold get_metrics. by rewrite Hd. Qed.

End MetricsRuns.

(** X18. The counters do not depend on the order in which requests are
    recorded: two runs of [record_request] with the same outcomes in a
    different order leave the same store. Nothing but the two request
    counters changes: the other items of [_metrics] and every other
    dictionary are as before. *)
Theorem record_requests_order_is_irrelevant
    (outcomes outcomes' : list bool) (h : gmap nat (gmap string Z))
    (total failed : Z) :
  Metrics.counter "app_requests_total" h = Some total →
  Metrics.counter "app_requests_failed" h = Some failed →
  outcomes ≡ₚ outcomes' →
  Metrics.record_requests outcomes h = Metrics.record_requests outcomes' h
  ∧ (∀ key, key ≠ "app_requests_total" → key ≠ "app_requests_failed" →
       Metrics.counter key (Metrics.record_requests outcomes h).2
       = Metrics.counter key h)
  ∧ (∀ a, a ≠ Metrics._metrics →
       (Metrics.record_requests outcomes h).2 !! a = h !! a).
Proof.
  unfold Metrics.counter. intros Ht Hf Hperm.
  destruct (h !! Metrics._metrics) as [d|] eqn:Hd; [|done]. cbn in Ht, Hf.
  rewrite (record_requests_store outcomes h d total failed) by done.
  rewrite (record_requests_store outcomes' h d total failed) by done.
  split; [|split].
  - assert (Hlen : length outcomes = length outcomes') by by rewrite Hperm.
    assert (Hfail : length (filter (λ ok, ok = false) outcomes)
                    = length (filter (λ ok, ok = false) outcomes'))
      by by rewrite Hperm.
    by rewrite Hlen, Hfail.
  - intros key Hkt Hkf. cbn [snd]. rewrite lookup_insert_eq. cbn.
    by rewrite !lookup_insert_ne by done.
  - intros a Ha. cbn [snd]. by rewrite lookup_insert_ne.
Qed.

Lemma record_requests_order_is_irrelevant_witness :
  Metrics.record_requests [true; false; true] Metrics.initial_store
  = Metrics.record_requests [false; true; true] Metrics.initial_store
  ∧ (∀ key, key ≠ "app_requests_total" → key ≠ "app_requests_failed" →
       Metrics.counter key
         (Metrics.record_requests [true; false; true] Metrics.initial_store).2
       = Metrics.counter key Metrics.initial_store)
  ∧ (∀ a, a ≠ Metrics._metrics →
       (Metrics.record_requests [true; false; true] Metrics.initial_store).2 !! a
       = Metrics.initial_store !! a).
Proof.
  apply (record_requests_order_is_irrelevant [true; false; true] [false; true; true]
           Metrics.initial_store 0 0).
  - reflexivity.
  - reflexivity.
  - apply perm_swap.
Defined.

(** X19. A snapshot is not a view: the dictionary that [get_metrics] returned
    keeps the items it was made with however many requests are recorded
    afterwards, and a second [get_metrics] returns a different dictionary. *)
Theorem snapshot_does_not_follow_metrics
    (h : gmap nat (gmap string Z)) (d : gmap string Z) :
  h !! Metrics._metrics = Some d →
  ∃ snapshot,
    (Metrics.get_metrics h).1 = Metrics.Returned snapshot
    ∧ (∀ outcomes,
         (Metrics.record_requests outcomes (Metrics.get_metrics h).2).2 !! snapshot
         = Some d)
    ∧ ∃ second,
        (Metrics.get_metrics (Metrics.get_metrics h).2).1 = Metrics.Returned second
        ∧ second ≠ snapshot ∧ second ≠ Metrics._metrics.
Proof.
  intros Hd. destruct (get_metrics_fresh h d Hd) as [Hne Hnone].
  rewrite (get_metrics_store h d Hd). cbn [fst snd].
  exists (fresh (dom h)). split; [done|]. split.
  - intros outcomes. rewrite record_requests_elsewhere by done.
    by rewrite lookup_insert_eq.
  - assert (Hd' : <[fresh (dom h) := d]> h !! Metrics._metrics = Some d)
      by by rewrite lookup_insert_ne.
    destruct (get_metrics_fresh _ d Hd') as [Hne' Hnone'].
    rewrite (get_metrics_store _ d Hd'). cbn [fst].
    eexists. split; [done|]. split; [|done].
    intros Heq. rewrite Heq in Hnone'. by rewrite lookup_insert_eq in Hnone'.
Qed.

Lemma snapshot_does_not_follow_metrics_witness :
  ∃ snapshot,
    (Metrics.get_metrics Metrics.initial_store).1 = Metrics.Returned snapshot
    ∧ (∀ outcomes,
         (Metrics.record_requests outcomes
            (Metrics.get_metrics Metrics.initial_store).2).2 !! snapshot
         = Some Metrics.initial_metrics)
    ∧ ∃ second,
        (Metrics.get_metrics (Metrics.get_metrics Metrics.initial_store).2).1
        = Metrics.Returned second
        ∧ second ≠ snapshot ∧ second ≠ Metrics._metrics.
Proof.
  apply (snapshot_does_not_follow_metrics Metrics.initial_store Metrics.initial_metrics).
  reflexivity.
Defined.

Section MetricsEndpoint.
Import Metrics.

Lemma set_metric_store key value (h : gmap nat (gmap string Z)) d :
  h !! _metrics = Some d →
  set_metric key value h = (Done (), <[_metrics := <[key := value]> d]> h).
Proof. intros Hd. unfold set_metric. by rewrite Hd. Qed.

End MetricsEndpoint.

(** X20. The [/metrics] endpoint counts every call in the total. A database
    that does not answer the check ([SQLAlchemyError]) is reported through
    [db_connection_ok = 0] and the time of the error, while the call itself
    is answered with a snapshot and counted as successful; only an exception
    of another kind is counted as a failed request, and leaves the endpoint.
    The snapshot returned is the state after the call has been counted. *)
Theorem metrics_endpoint_counts_every_call
    (exec : Metrics.ExecOutcome) (now : Z) (h : gmap nat (gmap string Z))
    (total failed : Z) :
  Metrics.counters_ok h total failed →
  let out := Metrics.metrics exec now h in
  Metrics.counter "app_requests_total" out.2 = Some (total + 1)
  ∧ Metrics.counter "app_requests_failed" out.2
    = Some (match exec with Metrics.ExecOtherError => failed + 1 | _ => failed end)
  ∧ Metrics.counter "db_connection_ok" out.2
    = match exec with
      | Metrics.ExecOk => Some 1
      | Metrics.ExecSQLAlchemyError => Some 0
      | Metrics.ExecOtherError => Metrics.counter "db_connection_ok" h
      end
  ∧ Metrics.counter "db_last_error_timestamp" out.2
    = match exec with
      | Metrics.ExecSQLAlchemyError => Some now
      | _ => Metrics.counter "db_last_error_timestamp" h
      end
  ∧ match exec with
    | Metrics.ExecOtherError => out.1 = Metrics.Escapes Metrics.FromExecute
    | _ => ∃ snapshot,
             out.1 = Metrics.Done snapshot
             ∧ snapshot ≠ Metrics._metrics
             ∧ out.2 !! snapshot = out.2 !! Metrics._metrics
    end.
Proof.
  unfold Metrics.counters_ok, Metrics.counter. intros (Ht & Hf & _).
  destruct (h !! Metrics._metrics) as [d|] eqn:Hd; [|done]. cbn in Ht, Hf.
  cbn zeta. unfold Metrics.metrics, Metrics.check_database.
  destruct exec.
  - rewrite (set_metric_store _ _ h d Hd).
    set (d1 := <["db_connection_ok" := 1]> d).
    set (h1 := <[Metrics._metrics := d1]> h).
    assert (Hd1 : h1 !! Metrics._metrics = Some d1) by apply lookup_insert_eq.
    cbv beta iota zeta.
    rewrite (record_request_store true h1 d1 total failed)
      by (done || (subst d1; by rewrite lookup_insert_ne by done)).
    cbv beta iota zeta.
    erewrite get_metrics_store by apply lookup_insert_eq.
    set (d2 := <["app_requests_failed" := failed + 0]>
                 (<["app_requests_total" := total + 1]> d1)).
    set (h2 := <[Metrics._metrics := d2]> h1).
    assert (Hd2 : h2 !! Metrics._metrics = Some d2) by apply lookup_insert_eq.
    destruct (get_metrics_fresh h2 d2 Hd2) as [Hne _].
    cbn [fst snd]. rewrite !(lookup_insert_ne h2) by done. rewrite Hd2. cbn.
    subst d2 d1.
    repeat split.
    + rewrite lookup_insert_ne by done. by rewrite lookup_insert_eq.
    + rewrite lookup_insert_eq. f_equal. lia.
    + rewrite !lookup_insert_ne by done. by rewrite lookup_insert_eq.
    + by rewrite !lookup_insert_ne by done.
    + eexists. split; [done|]. split; [done|]. by rewrite lookup_insert_eq.
  - rewrite (set_metric_store _ _ h d Hd). cbv beta iota zeta.
    erewrite set_metric_store by apply lookup_insert_eq.
    rewrite insert_insert_eq.
    set (d1 := <["db_last_error_timestamp" := now]> (<["db_connection_ok" := 0]> d)).
    set (h1 := <[Metrics._metrics := d1]> h).
    assert (Hd1 : h1 !! Metrics._metrics = Some d1) by apply lookup_insert_eq.
    cbv beta iota zeta.
    rewrite (record_request_store true h1 d1 total failed)
      by (done || (subst d1; by rewrite !lookup_insert_ne by done)).
    cbv beta iota zeta.
    erewrite get_metrics_store by apply lookup_insert_eq.
    set (d2 := <["app_requests_failed" := failed + 0]>
                 (<["app_requests_total" := total + 1]> d1)).
    set (h2 := <[Metrics._metrics := d2]> h1).
    assert (Hd2 : h2 !! Metrics._metrics = Some d2) by apply lookup_insert_eq.
    destruct (get_metrics_fresh h2 d2 Hd2) as [Hne _].
    cbn [fst snd]. rewrite !(lookup_insert_ne h2) by done. rewrite Hd2. cbn.
    subst d2 d1.
    repeat split.
    + rewrite lookup_insert_ne by done. by rewrite lookup_insert_eq.
    + rewrite lookup_insert_eq. f_equal. lia.
    + rewrite !lookup_insert_ne by done. by rewrite lookup_insert_eq.
    + rewrite !lookup_insert_ne by done. by rewrite lookup_insert_eq.
    + eexists. split; [done|]. split; [done|]. by rewrite lookup_insert_eq.
  - cbv beta iota zeta.
    rewrite (record_request_store false h d total failed) by done.
    cbn [fst snd]. rewrite lookup_insert_eq. cbn.
    repeat split.
    + rewrite lookup_insert_ne by done. by rewrite lookup_insert_eq.
    + by rewrite lookup_insert_eq.
    + by rewrite !lookup_insert_ne by done.
    + by rewrite !lookup_insert_ne by done.
Qed.

Lemma metrics_endpoint_counts_every_call_witness :
  let out := Metrics.metrics Metrics.ExecSQLAlchemyError 1700000000
               Metrics.initial_store in
  Metrics.counter "app_requests_total" out.2 = Some (0 + 1)
  ∧ Metrics.counter "app_requests_failed" out.2 = Some 0
  ∧ Metrics.counter "db_connection_ok" out.2 = Some 0
  ∧ Metrics.counter "db_last_error_timestamp" out.2 = Some 1700000000
  ∧ ∃ snapshot,
      out.1 = Metrics.Done snapshot
      ∧ snapshot ≠ Metrics._metrics
      ∧ out.2 !! snapshot = out.2 !! Metrics._metrics.
Proof.
  apply (metrics_endpoint_counts_every_call Metrics.ExecSQLAlchemyError 1700000000
           Metrics.initial_store 0 0).
  vm_compute. repeat split; discriminate.
Defined.
